(** * ContextPilot (src/pilot/main.py): ignore rules, tree builder,
      file collector, token estimate, strategy choice and prompt builders.

    Shallow embedding of the Python module.  Paths are lists of path
    components; strings are Rocq [string]s of bytes (non-ASCII text, and
    non-ASCII whitespace in [str.strip], are not modelled). *)

From Stdlib Require Import String Ascii List Bool ZArith Lia Sorted Permutation.
From Stdlib Require Import PrimFloat SpecFloat FloatOps Uint63.
Import ListNotations.

Local Open Scope string_scope.
Local Open Scope list_scope.

Infix "+++" := String.append (at level 60, right associativity).

(** ** Characters and Python string helpers *)

Definition chr (n : nat) : string := String (ascii_of_nat n) EmptyString.
Definition nl : string := chr 10.

(** [str.isspace] restricted to ASCII: \t \n \v \f \r, \x1c-\x1f and space. *)
Definition is_py_space (c : ascii) : bool :=
  let n := nat_of_ascii c in
  (Nat.leb 9 n && Nat.leb n 13) || (Nat.leb 28 n && Nat.leb n 32).

Fixpoint lstrip_ws (s : string) : string :=
  match s with
  | EmptyString => EmptyString
  | String c s' => if is_py_space c then lstrip_ws s' else s
  end.

Fixpoint rev_str (s : string) : string :=
  match s with
  | EmptyString => EmptyString
  | String c s' => rev_str s' +++ String c EmptyString
  end.

(** [str.strip()] *)
Definition py_strip (s : string) : string :=
  rev_str (lstrip_ws (rev_str (lstrip_ws s))).

Fixpoint lstrip_char (d : ascii) (s : string) : string :=
  match s with
  | EmptyString => EmptyString
  | String c s' => if Ascii.eqb c d then lstrip_char d s' else s
  end.

(** [str.rstrip(d)] for a one-character [d] *)
Definition rstrip_char (d : ascii) (s : string) : string :=
  rev_str (lstrip_char d (rev_str s)).

Definition startswith (s pre : string) : bool := String.prefix pre s.

Fixpoint endswith (s suf : string) : bool :=
  if String.eqb s suf then true
  else match s with
       | EmptyString => false
       | String _ s' => endswith s' suf
       end.

(** Split at every character satisfying [sep]. *)
Fixpoint split_by (sep : ascii -> bool) (s : string) : list string :=
  match s with
  | EmptyString => [EmptyString]
  | String c s' =>
      if sep c then EmptyString :: split_by sep s'
      else match split_by sep s' with
           | [] => [String c EmptyString]
           | w :: ws => String c w :: ws
           end
  end.

Definition slash : ascii := "/"%char.

(** ** Paths (pathlib.PurePosixPath)

    A path is the list of its components below "/".  A string is parsed
    by splitting at "/" and dropping empty and "." components (the
    special "//" root is not modelled). *)

Definition path := list string.

Definition parse_parts (s : string) : path :=
  filter (fun w => negb (String.eqb w "") && negb (String.eqb w "."))
         (split_by (Ascii.eqb slash) s).

(** [root / s]: an absolute [s] replaces [root]. *)
Definition path_join (root : path) (s : string) : path :=
  if startswith s "/" then parse_parts s else root ++ parse_parts s.

(** [Path.name]: the last component, "" for "/" or ".". *)
Definition path_name (p : path) : string := last p "".

Fixpoint strip_prefix (root p : path) : option path :=
  match root, p with
  | [], _ => Some p
  | r :: root', x :: p' => if String.eqb r x then strip_prefix root' p' else None
  | _ :: _, [] => None
  end.

(** [p.relative_to(root)]; [None] is the ValueError it raises. *)
Definition relative_to (p root : path) : option path := strip_prefix root p.

(** ** Configuration constants *)

Definition DEFAULT_IGNORE_DIRS : list string :=
  [".git"; "venv"; ".venv"; "__pycache__"; ".pytest_cache"; ".ruff_cache";
   "build"; "dist"; ".eggs"].
Definition DEFAULT_IGNORE_FILES : list string := ["pilot.py"; "prompt.txt"].

(** ** [_is_ignored] on the relative path [rel = p.relative_to(root)] *)

Definition is_dir_ignored (rel : path) (ignore_dirs : list path) : bool :=
  existsb (fun part => existsb (String.eqb part) (map path_name ignore_dirs)) rel.

Definition is_file_ignored (rel : path) (ignore_files : list path) : bool :=
  existsb (fun ign => String.eqb (path_name rel) (path_name ign)) ignore_files.

Definition is_ignored_rel (rel : path) (ignore_dirs ignore_files : list path) : bool :=
  is_dir_ignored rel ignore_dirs || is_file_ignored rel ignore_files.

(** [_is_ignored(p, root, ignore_dirs, ignore_files)]; [None] when
    [p.relative_to(root)] raises. *)
Definition _is_ignored (p root : path) (ignore_dirs ignore_files : list path)
  : option bool :=
  option_map (fun rel => is_ignored_rel rel ignore_dirs ignore_files)
             (relative_to p root).

(** [_in_scope_dir(p, root, only_from)] *)
Definition _in_scope_dir (p root : path) (only_from : option (list string)) : option bool :=
  match only_from with
  | None => Some true
  | Some dirs =>
      if list_eq_dec string_dec p root then Some true
      else match relative_to p root with
           | None => None
           | Some rel =>
               let top := match rel with [] => "" | t :: _ => t end in
               Some (existsb (String.eqb top) dirs)
           end
  end.

(** ** [load_gitignore_patterns(root)]

    [gitignore] is the content of [root/.gitignore], [None] when it is not
    a file.  Text-mode reading splits lines at "\n", "\r" and "\r\n"; since
    each line is stripped and empty lines are dropped, splitting at every
    CR and every LF gives the same patterns. *)

Definition is_newline (c : ascii) : bool :=
  Ascii.eqb c (ascii_of_nat 10) || Ascii.eqb c (ascii_of_nat 13).

Definition load_gitignore_patterns (gitignore : option string) : list string :=
  match gitignore with
  | None => []
  | Some text =>
      fold_left
        (fun patterns raw =>
           let line := py_strip raw in
           if negb (String.eqb line "") && negb (startswith line "#")
           then patterns ++ [rstrip_char slash line]
           else patterns)
        (split_by is_newline text) []
  end.

(** The ignore lists built in [main]. *)
Definition ignore_dirs_of (root : path) (gitignore_patterns : list string) : list path :=
  map (path_join root) (DEFAULT_IGNORE_DIRS ++ gitignore_patterns).

Definition ignore_files_of (root : path) (output_name : string) : list path :=
  map (path_join root) (DEFAULT_IGNORE_FILES ++ [output_name]).

(** ** Option monad for raising code: [None] is an exception. *)

Notation "x <- m ;; k" := (match m with Some x => k | None => None end)
  (at level 61, m at next level, right associativity).

(** ** Orderings used by [sorted]

    Python compares strings by code point, i.e. [String.compare] on
    bytes; tuples and lists compare lexicographically. *)

Definition lower_char (c : ascii) : ascii :=
  let n := nat_of_ascii c in
  if Nat.leb 65 n && Nat.leb n 90 then ascii_of_nat (n + 32) else c.

(** [str.lower()] *)
Fixpoint str_lower (s : string) : string :=
  match s with
  | EmptyString => EmptyString
  | String c s' => String (lower_char c) (str_lower s')
  end.

(** [<] on [(bool, str)] tuples ([False < True]). *)
Definition key_lt (k1 k2 : bool * string) : bool :=
  let (b1, s1) := k1 in
  let (b2, s2) := k2 in
  (negb b1 && b2) || (Bool.eqb b1 b2 && String.ltb s1 s2).

(** Comparison of [Path]s: lexicographic on the components. *)
Fixpoint path_compare (p q : path) : comparison :=
  match p, q with
  | [], [] => Eq
  | [], _ :: _ => Lt
  | _ :: _, [] => Gt
  | x :: p', y :: q' =>
      match String.compare x y with
      | Eq => path_compare p' q'
      | c => c
      end
  end.

Definition path_lt (p q : path) : bool :=
  match path_compare p q with Lt => true | _ => false end.

(** ** Stable sort ([sorted], a stable sort for the strict order [lt]) *)

Section SortBy.
Context {A : Type} (lt : A -> A -> bool).

Fixpoint insert_by (x : A) (l : list A) : list A :=
  match l with
  | [] => [x]
  | y :: l' => if lt x y then x :: l else y :: insert_by x l'
  end.

Definition sort_by (l : list A) : list A :=
  fold_left (fun acc x => insert_by x acc) l [].

End SortBy.

(** [[x for x in l if f(x)]] where evaluating [f] may raise. *)
Fixpoint filter_opt {A : Type} (f : A -> option bool) (l : list A) : option (list A) :=
  match l with
  | [] => Some []
  | x :: l' =>
      b <- f x ;;
      rest <- filter_opt f l' ;;
      Some (if b then x :: rest else rest)
  end.

(** ** The file system

    A node is a regular file or a directory; a directory records whether
    listing it succeeds and its children in the order the OS lists them. *)

Set Warnings "-register-all".
Inductive node : Type :=
| File : node
| Dir : bool -> list (string * node) -> node.

Definition is_file (n : node) : bool := match n with File => true | Dir _ _ => false end.
Definition is_dir (n : node) : bool := negb (is_file n).

(** I/O trace of [build_tree]: the directories it lists and the lines it
    appends (each line annotated with the entry it renders). *)
Inductive event : Type :=
| Listed (dir : path)
| Line (entry : path) (file : bool) (text : string).

Definition line_text (e : event) : option string :=
  match e with Line _ _ t => Some t | Listed _ => None end.

Definition connector_last : string := "└── ".
Definition connector_mid : string := "├── ".
Definition extension_last : string := "    ".
Definition extension_mid : string := "│   ".

(** ** [build_tree] *)

Section Tree.
Context (root : path) (ignore_dirs ignore_files : list path)
        (only_from : option (list string)).

(** A listed child of [dir_path]: its name, its node, and the recursive
    [walk] to run on it. *)
Record entry : Type := mk_entry {
  ename : string;
  enode : node;
  ewalk : path -> string -> option (list event)
}.

Definition entry_key (e : entry) : bool * string := (is_file (enode e), str_lower (ename e)).
Definition entry_lt (e1 e2 : entry) : bool := key_lt (entry_key e1) (entry_key e2).

(** [not _is_ignored(e, ...) and _in_scope_dir(e, ...)] *)
Definition keep_entry (p : path) : option bool :=
  ig <- _is_ignored p root ignore_dirs ignore_files ;;
  if ig then Some false else _in_scope_dir p root only_from.

(** The [for i, entry in enumerate(filtered_entries)] loop. *)
Fixpoint emit_entries (dir_path : path) (prefix : string) (count i : nat)
         (es : list entry) : option (list event) :=
  match es with
  | [] => Some []
  | e :: es' =>
      let last := Nat.eqb i (count - 1) in
      let entry_path := dir_path ++ [ename e] in
      let here := Line entry_path (is_file (enode e))
                       (prefix +++ (if last then connector_last else connector_mid) +++ ename e) in
      sub <- (if is_dir (enode e)
              then ewalk e entry_path (prefix +++ (if last then extension_last else extension_mid))
              else Some []) ;;
      rest <- emit_entries dir_path prefix count (S i) es' ;;
      Some (here :: sub ++ rest)
  end.

(** [walk(dir_path, prefix)] on the node found at [dir_path].  Listing an
    unreadable directory (or a file) raises. *)
Fixpoint walk (n : node) (dir_path : path) (prefix : string) {struct n} : option (list event) :=
  match n with
  | File => None
  | Dir false _ => None
  | Dir true children =>
      let listed := map (fun '(nm, c) => mk_entry nm c (walk c)) children in
      let entries := sort_by entry_lt listed in
      filtered <- filter_opt (fun e => keep_entry (dir_path ++ [ename e])) entries ;;
      evs <- emit_entries dir_path prefix (length filtered) 0 filtered ;;
      Some (Listed dir_path :: evs)
  end.

Definition tree_lines (evs : list event) : list string :=
  "." :: flat_map (fun e => match line_text e with Some t => [t] | None => [] end) evs.

(** [build_tree(root, ...)], the node [fs] being the root directory. *)
Definition build_tree (fs : node) : option string :=
  evs <- walk fs root "" ;;
  Some (String.concat nl (tree_lines evs)).

(** ** [collect_project_files] *)

(** [os.walk(top)] (top-down, errors ignored): the triples
    [(dirpath, dirnames, filenames)] it yields. *)
Fixpoint os_walk (n : node) (top : path) {struct n} : list (path * list string * list string) :=
  match n with
  | File => []
  | Dir false _ => []
  | Dir true children =>
      let dirnames := map fst (filter (fun c => is_dir (snd c)) children) in
      let filenames := map fst (filter (fun c => negb (is_dir (snd c))) children) in
      (top, dirnames, filenames) ::
      (fix go (l : list (string * node)) : list (path * list string * list string) :=
         match l with
         | [] => []
         | (nm, c) :: l' => (if is_dir c then os_walk c (top ++ [nm]) else []) ++ go l'
         end) children
  end.

(** The inner [for fname in filenames] loop. *)
Fixpoint collect_in_dir (d_path : path) (extensions : list string)
         (filenames : list string) : option (list path) :=
  match filenames with
  | [] => Some []
  | fname :: rest =>
      here <- (if existsb (endswith fname) extensions
               then let fpath := d_path ++ [fname] in
                    ig <- _is_ignored fpath root ignore_dirs ignore_files ;;
                    Some (if ig then [] else [fpath])
               else Some []) ;;
      more <- collect_in_dir d_path extensions rest ;;
      Some (here ++ more)
  end.

(** [_is_ignored(d_path, ...) or not _in_scope_dir(d_path, ...)] *)
Definition skip_dir (d_path : path) : option bool :=
  ig <- _is_ignored d_path root ignore_dirs ignore_files ;;
  if ig then Some true
  else (sc <- _in_scope_dir d_path root only_from ;; Some (negb sc)).

Fixpoint collect_walk (extensions : list string)
         (walked : list (path * list string * list string)) : option (list path) :=
  match walked with
  | [] => Some []
  | (d_path, _, filenames) :: rest =>
      skip <- skip_dir d_path ;;
      here <- (if skip then Some [] else collect_in_dir d_path extensions filenames) ;;
      more <- collect_walk extensions rest ;;
      Some (here ++ more)
  end.

Definition collect_project_files (fs : node) (extensions : list string) : option (list path) :=
  project_files <- collect_walk extensions (os_walk fs root) ;;
  Some (sort_by path_lt project_files).

End Tree.

(** ** [count_tokens]

    The tokenizer is tiktoken's: [encoding_for_model] is [None] when it
    raises KeyError, [get_encoding] is [None] when it raises.  Python
    floats are IEEE doubles, i.e. primitive floats; [int(x)] truncates
    and raises on NaN and infinities. *)

Definition py_int_of_float (f : float) : option Z :=
  match Prim2SF f with
  | S754_zero _ => Some 0%Z
  | S754_finite s m e =>
      let v := if (0 <=? e)%Z then (Z.pos m * 2 ^ e)%Z else (Z.pos m / 2 ^ (- e))%Z in
      Some (if s then (- v)%Z else v)
  | _ => None
  end.

(** [float(n)] for a length [n] (below 2^63). *)
Definition float_of_nat (n : nat) : float := PrimFloat.of_uint63 (Uint63.of_Z (Z.of_nat n)).

(** Default [factor_to_gemini]. *)
Set Warnings "-inexact-float".
Definition default_factor : float := 1.28%float.

Section Tokens.
Context {encoding : Type}
        (encoding_for_model : string -> option encoding)
        (get_encoding : string -> option encoding)
        (encode : encoding -> string -> list Z).

Definition count_tokens (text model : string) (factor_to_gemini : float) : option Z :=
  enc <- (match encoding_for_model model with
          | Some e => Some e
          | None => get_encoding "cl100k_base"
          end) ;;
  py_int_of_float (PrimFloat.mul (float_of_nat (length (encode enc text))) factor_to_gemini).

End Tokens.

(** ** Reading files *)

Inductive py_exn : Type :=
| UnicodeDecodeError | FileNotFoundError | PermissionError | IsADirectoryError.

(** Subclasses of [OSError] (alias [IOError]). *)
Definition is_oserror (x : py_exn) : bool :=
  match x with UnicodeDecodeError => false | _ => true end.

(** What is found at a path when the prompt builders read it. *)
Inductive file_state : Type :=
| Readable (content : string)
| Undecodable
| Missing
| NoPermission
| Directory.

Definition read_text (st : file_state) : string + py_exn :=
  match st with
  | Readable c => inl c
  | Undecodable => inr UnicodeDecodeError
  | Missing => inr FileNotFoundError
  | NoPermission => inr PermissionError
  | Directory => inr IsADirectoryError
  end.

Definition path_is_dir (st : file_state) : bool :=
  match st with Directory => true | _ => false end.

(** [str(rel_path)] *)
Definition path_str (rel : path) : string :=
  match rel with [] => "." | _ => String.concat "/" rel end.

Definition bt : string := "`".
Definition fence : string := "```".

(** ** Prompt builders

    The long literal text of the full-context and discovery templates
    is kept abstract: [full_t0 .. full_t3] and [disc_t1], [disc_t2] are the
    literal pieces between the interpolated fields. *)

Section Prompts.
Context (root : path) (fsread : path -> file_state).

(** The loop of [make_full_context_prompt]: blocks of the readable files;
    a [UnicodeDecodeError] or [IOError] skips the file ([continue]). *)
Fixpoint full_context_blocks (files : list path) : option (list string) :=
  match files with
  | [] => Some []
  | fpath :: rest =>
      if path_is_dir (fsread fpath) then full_context_blocks rest
      else
        rel_path <- relative_to fpath root ;;
        here <- (match read_text (fsread fpath) with
                 | inl content =>
                     Some [("#### File: " +++ bt +++ path_str rel_path +++ bt +++ nl
                            +++ fence +++ nl +++ py_strip content +++ nl +++ fence)]
                 | inr UnicodeDecodeError => Some []
                 | inr x => if is_oserror x then Some [] else None
                 end) ;;
        more <- full_context_blocks rest ;;
        Some (here ++ more)
  end.

Definition full_context_contents (files : list path) : option string :=
  blocks <- full_context_blocks files ;;
  Some (String.concat (nl +++ nl) blocks).

Section Templates.
Context (full_t0 full_t1 full_t2 full_t3 disc_t1 disc_t2 : string).

Definition make_full_context_prompt (task tree : string) (files : list path) : option string :=
  all_contents <- full_context_contents files ;;
  Some (full_t0 +++ tree +++ full_t1 +++ all_contents +++ full_t2 +++ task +++ full_t3).

Definition make_discovery_prompt (task tree : string) : string :=
  "# Your Task" +++ nl +++ task +++ disc_t1 +++ tree +++ disc_t2.

End Templates.

(** The loop of [make_files_prompt]: only [UnicodeDecodeError] and
    [FileNotFoundError] are caught. *)
Fixpoint files_blocks (files : list path) : option (list string) :=
  match files with
  | [] => Some []
  | fpath :: rest =>
      rel_path <- relative_to fpath root ;;
      let head := "## " +++ bt +++ path_str rel_path +++ bt +++ ":" +++ nl +++ fence +++ nl in
      here <- (match read_text (fsread fpath) with
               | inl content => Some (head +++ py_strip content +++ nl +++ fence)
               | inr UnicodeDecodeError | inr FileNotFoundError =>
                   Some (head +++ "Error: Could not read this file." +++ nl +++ fence)
               | inr _ => None
               end) ;;
      more <- files_blocks rest ;;
      Some (here :: more)
  end.

Definition make_files_prompt (files : list path) : option string :=
  blocks <- files_blocks files ;;
  Some (String.concat (nl +++ nl) blocks).

(** ** [make_full_context_prompt_old] *)

(** Its loop: only [UnicodeDecodeError] is caught (the file is skipped). *)
Fixpoint old_blocks (files : list path)
  : option (list string) :=
  match files with
  | [] => Some []
  | fpath :: rest =>
      rel_path <- relative_to fpath root ;;
      here <- (match read_text (fsread fpath) with
               | inl content =>
                   Some ["## " +++ bt +++ path_str rel_path +++ bt +++ ":" +++ nl +++ fence +++ nl
                         +++ py_strip content +++ nl +++ fence]
               | inr UnicodeDecodeError => Some []
               | inr _ => None
               end) ;;
      more <- old_blocks rest ;;
      Some (here ++ more)
  end.

(** [old_t1] is the literal text after the task, [old_t2] the one after
    the file contents. *)
Definition make_full_context_prompt_old (old_t1 old_t2 task tree : string) (files : list path) : option string :=
  blocks <- old_blocks files ;;
  let all_contents := String.concat (nl +++ nl) blocks in
  Some ("# Your Task" +++ nl +++ task +++ nl +++ nl +++ old_t1
        +++ "# Project Context" +++ nl +++ nl +++ "## Folder Structure" +++ nl +++ fence +++ nl
        +++ tree +++ nl +++ fence +++ nl +++ nl +++ "## File Contents" +++ nl
        +++ all_contents +++ nl +++ nl +++ old_t2).

End Prompts.

(** ** [make_git_prompt] *)

Inductive git_outcome : Type :=
| GitOutput (stdout : string)
| GitFailed (stderr : string)   (* CalledProcessError *)
| GitMissing.                   (* FileNotFoundError *)

Section Git.
Context (git : list string -> git_outcome) (git_instructions : string).

(** [_run_git(cmd)]; [None] is [sys.exit(1)]. *)
Definition _run_git (cmd : list string) : option string :=
  match git cmd with
  | GitOutput out => Some out
  | GitFailed _ => Some ""
  | GitMissing => None
  end.

Definition diff_cmd : list string := ["git"; "diff"; "--no-color"; "--unified=3"].

Definition git_diff (staged_only : bool) : option string :=
  d <- _run_git (diff_cmd ++ ["--cached"]) ;;
  if staged_only then Some d
  else (d' <- _run_git diff_cmd ;; Some (d +++ d')).

Definition make_git_prompt (staged_only : bool) : option string :=
  diff <- git_diff staged_only ;;
  if String.eqb (py_strip diff) "" then Some "No Git changes detected."
  else Some ("## Full Git Diff" +++ nl +++ fence +++ "diff" +++ nl +++ diff +++ nl
             +++ fence +++ nl +++ nl +++ git_instructions).

End Git.

(** ** The [assist] branch of [main] *)

Definition DEFAULT_ONLY_FROM_DIRS : option (list string) := None.

Section Assist.
Context {encoding : Type}
        (encoding_for_model : string -> option encoding)
        (get_encoding : string -> option encoding)
        (encode : encoding -> string -> list Z)
        (full_t0 full_t1 full_t2 full_t3 disc_t1 disc_t2 : string).

(** [tree + "\n" + task] followed by every readable file's text; any
    exception while reading is passed over. *)
Definition assist_full_context (fsread : path -> file_state) (tree task : string)
           (project_files : list path) : string :=
  fold_left (fun acc fpath =>
               match read_text (fsread fpath) with
               | inl content => acc +++ content
               | inr _ => acc
               end)
            project_files (tree +++ nl +++ task).

(** [root] is the resolved root, [fs] the directory found there, [fsread]
    what reading a path yields, [gitignore] the content of
    [root/.gitignore] and [output_name] the name of [--output]. *)
Definition assist_prompt (root : path) (fs : node) (fsread : path -> file_state)
           (gitignore : option string) (output_name : string)
           (threshold : Z) (task : string) (ext : list string) : option string :=
  let ignore_dirs := ignore_dirs_of root (load_gitignore_patterns gitignore) in
  let ignore_files := ignore_files_of root output_name in
  tree <- build_tree root ignore_dirs ignore_files DEFAULT_ONLY_FROM_DIRS fs ;;
  project_files <- collect_project_files root ignore_dirs ignore_files
                     DEFAULT_ONLY_FROM_DIRS fs ext ;;
  estimated_token_count <-
    count_tokens encoding_for_model get_encoding encode
      (assist_full_context fsread tree task project_files) "gpt-4" default_factor ;;
  if (estimated_token_count <? threshold)%Z
  then make_full_context_prompt root fsread full_t0 full_t1 full_t2 full_t3 task tree project_files
  else Some (make_discovery_prompt disc_t1 disc_t2 task tree).

End Assist.

(** ** Reference matcher following the spec's gitignore semantics

    Written from the spec (sections 3 and 4.1), not from the code: a
    pattern "!p" negates; a pattern containing "/" is anchored at the root
    (a leading "/" only anchors), other patterns match the last component
    of a path at any depth; "*" and "?" match inside one component and a
    "**" component matches any number of components; the last matching
    pattern decides, and a path is excluded when it or one of its parent
    directories is. *)

Fixpoint glob_match (p s : list ascii) : bool :=
  match p with
  | [] => match s with [] => true | _ :: _ => false end
  | c :: p' =>
      if Ascii.eqb c "*"%char then
        (fix star (s : list ascii) : bool :=
           glob_match p' s || match s with [] => false | _ :: s' => star s' end) s
      else if Ascii.eqb c "?"%char then
        match s with [] => false | _ :: s' => glob_match p' s' end
      else
        match s with [] => false | d :: s' => Ascii.eqb c d && glob_match p' s' end
  end.

Fixpoint segments_match (ps xs : list string) : bool :=
  match ps with
  | [] => match xs with [] => true | _ :: _ => false end
  | p :: ps' =>
      if String.eqb p "**" then
        (fix any (xs : list string) : bool :=
           segments_match ps' xs || match xs with [] => false | _ :: xs' => any xs' end) xs
      else
        match xs with
        | [] => false
        | x :: xs' => glob_match (list_ascii_of_string p) (list_ascii_of_string x)
                      && segments_match ps' xs'
        end
  end.

Definition gi_negated (pat : string) : bool := startswith pat "!".

Definition gi_body (pat : string) : string :=
  if gi_negated pat then substring 1 (String.length pat - 1) pat else pat.

Definition gi_anchored (body : string) : bool :=
  existsb (Ascii.eqb slash) (list_ascii_of_string body).

Definition gi_matches (pat : string) (rel : path) : bool :=
  let body := gi_body pat in
  if gi_anchored body
  then segments_match (filter (fun w => negb (String.eqb w "")) (split_by (Ascii.eqb slash) body)) rel
  else match rel with
       | [] => false
       | _ :: _ => glob_match (list_ascii_of_string body) (list_ascii_of_string (path_name rel))
       end.

Definition gi_decide (pats : list string) (rel : path) : option bool :=
  fold_left (fun acc pat => if gi_matches pat rel then Some (negb (gi_negated pat)) else acc)
            pats None.

Definition gitignore_excluded (pats : list string) (rel : path) : bool :=
  existsb (fun k => match gi_decide pats (firstn k rel) with Some true => true | _ => false end)
          (seq 1 (length rel)).

(** The rule list of section 4.1: default directory names, default file
    names, the [.gitignore] lines, the output file name. *)
Definition spec_rules (gitignore : option string) (output_name : string) : list string :=
  DEFAULT_IGNORE_DIRS ++ DEFAULT_IGNORE_FILES ++ load_gitignore_patterns gitignore ++ [output_name].

(** [Path(root / q).name], read off the pathlib rules: the last component
    of [q] (empty and "." components dropped); for a [q] without any
    component, the name of [root], or "" (the name of "/") when [q] starts
    with "/". *)
Definition entry_name (root : path) (q : string) : string :=
  match parse_parts q with
  | [] => if startswith q "/" then "" else path_name root
  | ps => last ps ""
  end.

(** ** Orders, listings and renderings used in the statements *)

(** [<=] on [(bool, str)] keys, from the strict [key_lt]. *)
Definition key_le (k1 k2 : bool * string) : Prop := key_lt k2 k1 = false.

(** Ascending order of [Path]s as [sorted] uses it. *)
Definition path_le (p q : path) : Prop := path_lt q p = false.

(** [str(p)] of an absolute path. *)
Definition path_render (p : path) : string :=
  match p with
  | [] => "/"
  | _ :: _ => String.concat "" (map (fun c => "/" +++ c) p)
  end.

Fixpoint nodupb (l : list string) : bool :=
  match l with
  | [] => true
  | x :: l' => negb (existsb (String.eqb x) l') && nodupb l'
  end.

(** A file system tree whose directories never hold two entries of the
    same name. *)
Fixpoint names_unique (n : node) : bool :=
  match n with
  | File => true
  | Dir _ children => nodupb (map fst children) && forallb (fun '(_, c) => names_unique c) children
  end.

(** The key [(is_file, name.lower())] of a line the walk emits for a
    child of directory [d]; nothing for other events. *)
Definition child_key (d : path) (e : event) : list (bool * string) :=
  match e with
  | Line p b _ => match strip_prefix d p with
                  | Some [nm] => [(b, str_lower nm)]
                  | _ => []
                  end
  | Listed _ => []
  end.

(** The keys of the children of [d] in the order their lines are emitted. *)
Definition children_keys (d : path) (evs : list event) : list (bool * string) :=
  flat_map (child_key d) evs.

(** An event lies under [q]: a listing of [q] or below, a line strictly below. *)
Definition under (q : path) (e : event) : Prop :=
  match e with
  | Listed p => exists r, p = q ++ r
  | Line p _ _ => exists r, r <> [] /\ p = q ++ r
  end.

(** A root with mixed-case names, files listed before directories, and
    an ignored [.git]. *)
Definition example_sort_fs : node :=
  Dir true [("b.py", File); ("Zeta", Dir true []); ("A.md", File);
            ("src", Dir true [("y.py", File); ("X.py", File)]); (".git", Dir true [])].

Definition example_sort_evs : list event :=
  match walk ["r"] (ignore_dirs_of ["r"] []) (ignore_files_of ["r"] "prompt.txt") None
             example_sort_fs ["r"] "" with
  | Some evs => evs
  | None => []
  end.

(** A root with a file [a.py] next to a directory [a] holding [x.py]. *)
Definition example_prefix_fs : node :=
  Dir true [("a.py", File); ("a", Dir true [("x.py", File)])].

(** [read_text] succeeds. *)
Definition file_readable (st : file_state) : bool :=
  match st with Readable _ => true | _ => false end.

(** The heading [make_files_prompt] writes before a file's content. *)
Definition files_header (rel : path) : string :=
  "## " +++ bt +++ path_str rel +++ bt +++ ":" +++ nl +++ fence +++ nl.

(** Reading [r/ok.py] succeeds, [r/gone.py] has disappeared, any other
    path is unreadable (permission revoked). *)
Definition read_bad (p : path) : file_state :=
  if list_eq_dec string_dec p ["r"; "ok.py"] then Readable "x"
  else if list_eq_dec string_dec p ["r"; "gone.py"] then Missing
  else NoPermission.

(** The [(name, line)] pairs of the lines emitted for the children of [d]. *)
Definition child_line (d : path) (e : event) : list (string * string) :=
  match e with
  | Line p _ t => match strip_prefix d p with
                  | Some [nm] => [(nm, t)]
                  | _ => []
                  end
  | Listed _ => []
  end.

Definition children_lines (d : path) (evs : list event) : list (string * string) :=
  flat_map (child_line d) evs.

Definition connector (k n : nat) : string :=
  if Nat.eqb k (n - 1) then connector_last else connector_mid.

Definition extension (k n : nat) : string :=
  if Nat.eqb k (n - 1) then extension_last else extension_mid.

(** The lines of a group of siblings: a common prefix, the connector
    ["└── "] on the last one and ["├── "] on the others, then the name. *)
Definition siblings_rendered (lines : list (string * string)) (prefix : string) : Prop :=
  forall k nm t, nth_error lines k = Some (nm, t) ->
                 t = prefix +++ connector k (length lines) +++ nm.


Fixpoint expected_lines (pre : string) (count i : nat) (es : list entry) : list (string * string) :=
  match es with
  | [] => []
  | e :: es' => (ename e, pre +++ (if Nat.eqb i (count - 1) then connector_last else connector_mid)
                          +++ ename e)
                :: expected_lines pre count (S i) es'
  end.

Definition line_kept (root : path) (ignore_dirs ignore_files : list path)
           (only_from : option (list string)) (d : path) (e : event) : Prop :=
  match e with
  | Listed _ => True
  | Line p _ _ => keep_entry root ignore_dirs ignore_files only_from p = Some true
                  /\ exists r, r <> [] /\ p = d ++ r
  end.

(** A line that [load_gitignore_patterns] keeps as it is: not empty, no
    line break, no surrounding whitespace, no leading "#", no trailing "/". *)
Definition clean_pattern (p : string) : bool :=
  let cs := list_ascii_of_string p in
  match cs with
  | [] => false
  | c :: _ => negb (is_py_space c) && negb (Ascii.eqb c "#"%char)
  end
  && negb (is_py_space (last cs " "%char))
  && negb (Ascii.eqb (last cs " "%char) slash)
  && forallb (fun c => negb (is_newline c)) cs.

(** [f.read_text()] raises [UnicodeDecodeError]. *)
Definition file_undecodable (st : file_state) : bool :=
  match st with Undecodable => true | _ => false end.

(** A root holding a top-level file, a nested [src] and a [docs]
    directory. *)
Definition example_scope_fs : node :=
  Dir true [("setup.py", File);
            ("src", Dir true [("m.py", File); ("pkg", Dir true [("n.py", File)])]);
            ("docs", Dir true [("d.md", File)])].

(** Reading [r/ok.py] succeeds, [r/bin.dat] is binary, any other path
    has disappeared. *)
Definition read_mixed (p : path) : file_state :=
  if list_eq_dec string_dec p ["r"; "ok.py"] then Readable " x "
  else if list_eq_dec string_dec p ["r"; "bin.dat"] then Undecodable
  else Missing.

(** * Proofs *)

(** ** General facts on lists, strings and paths *)

Lemma relative_to_app (root rel : path) : relative_to (root ++ rel) root = Some rel.
Proof.
  unfold relative_to; induction root as [|r root IH]; simpl; [reflexivity|].
  rewrite String.eqb_refl; exact IH.
Qed.

Lemma is_ignored_app (root rel : path) (ignore_dirs ignore_files : list path) :
  _is_ignored (root ++ rel) root ignore_dirs ignore_files
  = Some (is_ignored_rel rel ignore_dirs ignore_files).
Proof. unfold _is_ignored; rewrite relative_to_app; reflexivity. Qed.

Lemma existsb_orb_fun {A : Type} (f g : A -> bool) (l : list A) :
  existsb (fun x => f x || g x) l = existsb f l || existsb g l.
Proof.
  induction l as [|x l IH]; simpl; [reflexivity|].
  rewrite IH; destruct (f x), (g x), (existsb f l), (existsb g l); reflexivity.
Qed.

Lemma last_app_nonnil {A : Type} (r l : list A) (d : A) :
  l <> [] -> last (r ++ l) d = last l d.
Proof.
  intros Hl; induction r as [|a r IH]; simpl; [reflexivity|].
  rewrite <- IH; destruct (r ++ l) eqn:E; [|reflexivity].
  apply app_eq_nil in E; destruct E; contradiction.
Qed.

Lemma split_by_no_sep (sep : ascii -> bool) (q : string) :
  existsb sep (list_ascii_of_string q) = false -> split_by sep q = [q].
Proof.
  induction q as [|c q IH]; simpl; [reflexivity|].
  intros H; apply orb_false_iff in H as [Hc Hq].
  rewrite Hc, (IH Hq); reflexivity.
Qed.

Lemma parse_parts_simple (q : string) :
  gi_anchored q = false -> q <> "" -> q <> "." -> parse_parts q = [q].
Proof.
  unfold gi_anchored, parse_parts; intros Hs H1 H2.
  rewrite split_by_no_sep by exact Hs; simpl.
  apply String.eqb_neq in H1, H2; rewrite H1, H2; reflexivity.
Qed.

Lemma startswith_slash_simple (q : string) :
  gi_anchored q = false -> startswith q "/" = false.
Proof.
  unfold gi_anchored, startswith; destruct q as [|c q]; [reflexivity|].
  intros H; cbn [list_ascii_of_string existsb] in H.
  apply orb_false_iff in H as [Hc _].
  cbn [String.prefix]; destruct (ascii_dec "/"%char c) as [E|]; [|reflexivity].
  subst c; unfold slash in Hc; rewrite Ascii.eqb_refl in Hc; discriminate.
Qed.

Lemma path_name_join_simple (root : path) (q : string) :
  gi_anchored q = false -> q <> "" -> q <> "." -> path_name (path_join root q) = q.
Proof.
  intros Hs H1 H2; unfold path_join, path_name.
  rewrite startswith_slash_simple, parse_parts_simple by assumption.
  apply last_last.
Qed.

Lemma parse_parts_slash (q : string) : parse_parts ("/" +++ q) = parse_parts q.
Proof. reflexivity. Qed.

Lemma startswith_slash_app (q : string) : startswith ("/" +++ q) "/" = true.
Proof. destruct q; reflexivity. Qed.

Lemma path_name_join_anchor (root : path) (q : string) :
  parse_parts q <> [] ->
  path_name (path_join root ("/" +++ q)) = path_name (path_join root q).
Proof.
  intros Hne; unfold path_join, path_name.
  rewrite startswith_slash_app, parse_parts_slash.
  destruct (startswith q "/"); [reflexivity|].
  symmetry; apply last_app_nonnil; exact Hne.
Qed.

Lemma is_dir_ignored_app_dirs (rel : path) (d1 d2 : list path) :
  is_dir_ignored rel (d1 ++ d2) = is_dir_ignored rel d1 || is_dir_ignored rel d2.
Proof.
  unfold is_dir_ignored; rewrite map_app.
  induction rel as [|x rel IH]; simpl; [reflexivity|].
  rewrite existsb_app, IH.
  destruct (existsb (String.eqb x) (map path_name d1)),
           (existsb (String.eqb x) (map path_name d2)),
           (existsb (fun part => existsb (String.eqb part) (map path_name d1)) rel),
           (existsb (fun part => existsb (String.eqb part) (map path_name d2)) rel);
    reflexivity.
Qed.

Lemma is_dir_ignored_app_rel (r1 r2 : path) (d : list path) :
  is_dir_ignored (r1 ++ r2) d = is_dir_ignored r1 d || is_dir_ignored r2 d.
Proof. unfold is_dir_ignored; apply existsb_app. Qed.

Lemma is_dir_ignored_names (rel : path) (d1 d2 : list path) :
  map path_name d1 = map path_name d2 -> is_dir_ignored rel d1 = is_dir_ignored rel d2.
Proof. unfold is_dir_ignored; intros E; rewrite E; reflexivity. Qed.

Lemma is_dir_ignored_single (rel : path) (p : path) :
  is_dir_ignored rel [p] = existsb (String.eqb (path_name p)) rel.
Proof.
  unfold is_dir_ignored; simpl.
  induction rel as [|x rel IH]; simpl; [reflexivity|].
  rewrite IH, orb_false_r, String.eqb_sym; reflexivity.
Qed.

Lemma is_dir_ignored_In (rel : path) (d : list path) (seg : string) :
  In seg rel -> In seg (map path_name d) -> is_dir_ignored rel d = true.
Proof.
  intros H1 H2; unfold is_dir_ignored; apply existsb_exists.
  exists seg; split; [exact H1|].
  apply existsb_exists; exists seg; split; [exact H2 | apply String.eqb_refl].
Qed.

(** ** Ignore predicate *)

(** C1 (counterexample): [_is_ignored] is not a gitignore matcher.  With a
    [.gitignore] holding "*.log", the path "a.log" is excluded by the
    gitignore semantics of the spec but is not ignored by the code; with
    "!build", the default "build" stays ignored by the code although the
    later negation un-ignores it.  Hence the claimed equality fails. *)
Lemma C1_counterexample :
  (_is_ignored ["r"; "a.log"] ["r"] (ignore_dirs_of ["r"] (load_gitignore_patterns (Some "*.log")))
               (ignore_files_of ["r"] "prompt.txt") = Some false
   /\ gitignore_excluded (spec_rules (Some "*.log") "prompt.txt") ["a.log"] = true)
  /\ (_is_ignored ["r"; "build"] ["r"] (ignore_dirs_of ["r"] (load_gitignore_patterns (Some "!build")))
                  (ignore_files_of ["r"] "prompt.txt") = Some true
      /\ gitignore_excluded (spec_rules (Some "!build") "prompt.txt") ["build"] = false)
  /\ ~ (forall (root rel : path) (gitignore : option string) (output_name : string),
          _is_ignored (root ++ rel) root (ignore_dirs_of root (load_gitignore_patterns gitignore))
                      (ignore_files_of root output_name)
          = Some (gitignore_excluded (spec_rules gitignore output_name) rel)).
Proof.
  split; [vm_compute; split; reflexivity|].
  split; [vm_compute; split; reflexivity|].
  intros H.
  pose proof (H ["r"] ["a.log"] (Some "*.log") "prompt.txt") as H1.
  vm_compute in H1; discriminate H1.
Qed.

Lemma path_name_join_entry (root : path) (q : string) :
  path_name (path_join root q) = entry_name root q.
Proof.
  unfold path_join, path_name, entry_name.
  destruct (parse_parts q) as [|x xs] eqn:E; destruct (startswith q "/"); try reflexivity.
  - rewrite app_nil_r; reflexivity.
  - apply last_app_nonnil; discriminate.
Qed.

Lemma existsb_map' {A B : Type} (f : B -> bool) (g : A -> B) (l : list A) :
  existsb f (map g l) = existsb (fun x => f (g x)) l.
Proof. induction l as [|x l IH]; simpl; [reflexivity | rewrite IH; reflexivity]. Qed.

Lemma existsb_ext {A : Type} (f g : A -> bool) (l : list A) :
  (forall x, f x = g x) -> existsb f l = existsb g l.
Proof. intros H; induction l as [|x l IH]; simpl; [reflexivity | rewrite H, IH; reflexivity]. Qed.

(** C1 (amended): [_is_ignored] compares names literally.  Each ignore-dir
    entry (default names and loaded patterns, joined to [root]) gives one
    name, the last component of [root / entry] ([entry_name]); a path is
    ignored exactly when one of its segments relative to [root] equals one
    of these names, or its last component equals the name obtained in the
    same way from an ignore-file entry (default file names and the output
    name).  A leading "/" changes nothing for a pattern with at least one
    component, and adding patterns never un-ignores a path. *)
Theorem C1_ignore_literal_names (root rel : path) (pats pats1 pats2 : list string)
        (output_name q : string) (ignore_files : list path) :
  _is_ignored (root ++ rel) root (ignore_dirs_of root pats) (ignore_files_of root output_name)
  = Some (existsb (fun seg => existsb (String.eqb seg)
                                      (map (entry_name root) (DEFAULT_IGNORE_DIRS ++ pats))) rel
          || existsb (fun f => String.eqb (path_name rel) (entry_name root f))
                     (DEFAULT_IGNORE_FILES ++ [output_name]))
  /\ (parse_parts q <> [] ->
      is_ignored_rel rel (ignore_dirs_of root (pats1 ++ ("/" +++ q) :: pats2)) ignore_files
      = is_ignored_rel rel (ignore_dirs_of root (pats1 ++ q :: pats2)) ignore_files)
  /\ (is_ignored_rel rel (ignore_dirs_of root pats1) ignore_files = true ->
      is_ignored_rel rel (ignore_dirs_of root (pats1 ++ pats2)) ignore_files = true).
Proof.
  split; [|split].
  - rewrite is_ignored_app; f_equal.
    unfold is_ignored_rel, is_dir_ignored, is_file_ignored, ignore_dirs_of, ignore_files_of.
    rewrite map_map, existsb_map'.
    f_equal.
    + apply existsb_ext; intros seg; rewrite (map_ext _ _ (path_name_join_entry root)); reflexivity.
    + apply existsb_ext; intros s; rewrite path_name_join_entry; reflexivity.
  - intros Hne; unfold ignore_dirs_of, is_ignored_rel; f_equal; apply is_dir_ignored_names.
    rewrite !map_app; cbn [map].
    rewrite path_name_join_anchor; [reflexivity | exact Hne].
  - unfold ignore_dirs_of, is_ignored_rel; intros H.
    rewrite app_assoc, map_app, is_dir_ignored_app_dirs.
    apply orb_true_iff in H as [H|H]; apply orb_true_iff;
      [left; rewrite H; reflexivity | right; exact H].
Qed.

(** C1 on the multi-segment pattern "docs/tmp": only its last component
    "tmp" counts, so "a/tmp" is ignored and "docs" is not; "/docs/tmp"
    acts as "docs/tmp".  The component-less "." and "/." differ: they name
    [root] itself and "/", whose name is "". *)
Lemma C1_witness :
  parse_parts "docs/tmp" <> []
  /\ entry_name ["r"] "docs/tmp" = "tmp"
  /\ _is_ignored (["r"] ++ ["a"; "tmp"]) ["r"] (ignore_dirs_of ["r"] ["docs/tmp"])
                 (ignore_files_of ["r"] "prompt.txt") = Some true
  /\ _is_ignored (["r"] ++ ["docs"]) ["r"] (ignore_dirs_of ["r"] ["docs/tmp"])
                 (ignore_files_of ["r"] "prompt.txt") = Some false
  /\ is_ignored_rel ["a"; "tmp"] (ignore_dirs_of ["r"] ([] ++ ["/" +++ "docs/tmp"]))
                    (ignore_files_of ["r"] "prompt.txt")
     = is_ignored_rel ["a"; "tmp"] (ignore_dirs_of ["r"] ([] ++ ["docs/tmp"]))
                      (ignore_files_of ["r"] "prompt.txt")
  /\ entry_name ["r"] "." = "r" /\ entry_name ["r"] "/." = "".
Proof.
  assert (Hne : parse_parts "docs/tmp" <> []) by discriminate.
  refine (conj Hne (conj eq_refl (conj _ (conj _ (conj _ (conj eq_refl eq_refl)))))).
  - rewrite (proj1 (C1_ignore_literal_names ["r"] ["a"; "tmp"] ["docs/tmp"] [] [] "prompt.txt" "" [])).
    reflexivity.
  - rewrite (proj1 (C1_ignore_literal_names ["r"] ["docs"] ["docs/tmp"] [] [] "prompt.txt" "" [])).
    reflexivity.
  - exact (proj1 (proj2 (C1_ignore_literal_names ["r"] ["a"; "tmp"] [] [] [] "prompt.txt" "docs/tmp"
                           (ignore_files_of ["r"] "prompt.txt"))) Hne).
Defined.

(** C10: ignoring by directory name is inherited.  A path with a segment
    naming an ignore directory is ignored; when a path is ignored by its
    directory-name test, so is every path below it; the file-name test
    only looks at the last component, so it is not inherited (a file
    named "prompt.txt" is ignored, "prompt.txt/a.py" is not). *)
Theorem C10_dir_names_inherited (root rel ext : path) (ignore_dirs ignore_files : list path)
        (x : string) :
  ((exists seg, In seg rel /\ In seg (map path_name ignore_dirs)) ->
   _is_ignored (root ++ rel) root ignore_dirs ignore_files = Some true)
  /\ (is_dir_ignored rel ignore_dirs = true ->
      _is_ignored ((root ++ rel) ++ ext) root ignore_dirs ignore_files = Some true)
  /\ is_file_ignored (rel ++ [x]) ignore_files = is_file_ignored [x] ignore_files
  /\ _is_ignored ["r"; "prompt.txt"] ["r"] (ignore_dirs_of ["r"] []) (ignore_files_of ["r"] "prompt.txt")
     = Some true
  /\ _is_ignored ["r"; "prompt.txt"; "a.py"] ["r"] (ignore_dirs_of ["r"] [])
                 (ignore_files_of ["r"] "prompt.txt") = Some false.
Proof.
  split; [|split; [|split; [|split]]].
  - intros [seg [H1 H2]]; rewrite is_ignored_app; unfold is_ignored_rel.
    rewrite (is_dir_ignored_In rel ignore_dirs seg H1 H2); reflexivity.
  - intros H; rewrite <- app_assoc, is_ignored_app; unfold is_ignored_rel.
    rewrite is_dir_ignored_app_rel, H; reflexivity.
  - unfold is_file_ignored, path_name; rewrite last_last; reflexivity.
  - vm_compute; reflexivity.
  - vm_compute; reflexivity.
Qed.

Lemma C10_witness :
  (exists seg, In seg ["src"; "build"] /\ In seg (map path_name (ignore_dirs_of ["r"] [])))
  /\ _is_ignored (["r"] ++ ["src"; "build"]) ["r"] (ignore_dirs_of ["r"] [])
                 (ignore_files_of ["r"] "prompt.txt") = Some true.
Proof.
  assert (E : exists seg, In seg ["src"; "build"] /\ In seg (map path_name (ignore_dirs_of ["r"] []))).
  { exists "build"; split; simpl; tauto. }
  split; [exact E|].
  exact (proj1 (C10_dir_names_inherited ["r"] ["src"; "build"] [] (ignore_dirs_of ["r"] [])
                  (ignore_files_of ["r"] "prompt.txt") "x") E).
Defined.

(** ** [str.strip] *)

Lemma lstrip_ws_empty_iff (s : string) :
  lstrip_ws s = "" <-> forallb is_py_space (list_ascii_of_string s) = true.
Proof.
  induction s as [|c s IH]; simpl; [tauto|].
  destruct (is_py_space c); simpl; [exact IH | split; discriminate].
Qed.

Lemma lstrip_ws_head (s t : string) (c : ascii) :
  lstrip_ws s = String c t -> is_py_space c = false.
Proof.
  induction s as [|d s IH]; simpl; [discriminate|].
  destruct (is_py_space d) eqn:E; [exact IH|].
  intros H; injection H as <- _; exact E.
Qed.

Lemma lstrip_ws_app_nonspace (x : string) (c : ascii) :
  is_py_space c = false -> lstrip_ws (x +++ String c "") <> "".
Proof.
  intros Hc; induction x as [|d x IH]; simpl.
  - rewrite Hc; discriminate.
  - destruct (is_py_space d); [exact IH | discriminate].
Qed.

Lemma rev_str_empty (s : string) : rev_str s = "" -> s = "".
Proof.
  destruct s as [|c s]; simpl; [reflexivity|].
  intros H; destruct (rev_str s); discriminate.
Qed.

Lemma py_strip_empty_iff (s : string) :
  py_strip s = "" <-> forallb is_py_space (list_ascii_of_string s) = true.
Proof.
  rewrite <- lstrip_ws_empty_iff; unfold py_strip; split.
  - intros H; apply rev_str_empty in H.
    destruct (lstrip_ws s) as [|c t] eqn:E; [reflexivity|].
    exfalso; apply (lstrip_ws_app_nonspace (rev_str t) c); [|exact H].
    exact (lstrip_ws_head s t c E).
  - intros H; rewrite H; reflexivity.
Qed.

(** ** [make_git_prompt] *)

(** C8: when the combined diff (staged, plus unstaged unless
    [staged_only]) is empty or whitespace only, [make_git_prompt] returns
    exactly "No Git changes detected."; otherwise it returns the diff
    template around the diff. *)
Theorem C8_git_no_changes (git : list string -> git_outcome) (git_instructions : string)
        (staged_only : bool) (diff : string)
        (Hdiff : git_diff git staged_only = Some diff) :
  (forallb is_py_space (list_ascii_of_string diff) = true ->
   make_git_prompt git git_instructions staged_only = Some "No Git changes detected.")
  /\ (forallb is_py_space (list_ascii_of_string diff) = false ->
      make_git_prompt git git_instructions staged_only
      = Some ("## Full Git Diff" +++ nl +++ fence +++ "diff" +++ nl +++ diff +++ nl
              +++ fence +++ nl +++ nl +++ git_instructions)).
Proof.
  unfold make_git_prompt; rewrite Hdiff; split; intros H.
  - apply py_strip_empty_iff in H; rewrite H; reflexivity.
  - destruct (String.eqb (py_strip diff) "") eqn:E; [|reflexivity].
    apply String.eqb_eq, py_strip_empty_iff in E; congruence.
Qed.

Definition blank_git (cmd : list string) : git_outcome := GitOutput (" " +++ nl).

Lemma C8_witness :
  (git_diff blank_git false = Some ((" " +++ nl) +++ (" " +++ nl))
   /\ forallb is_py_space (list_ascii_of_string ((" " +++ nl) +++ (" " +++ nl))) = true)
  /\ make_git_prompt blank_git "" false = Some "No Git changes detected.".
Proof.
  assert (H : git_diff blank_git false = Some ((" " +++ nl) +++ (" " +++ nl))) by reflexivity.
  split; [split; [exact H | reflexivity]|].
  exact (proj1 (C8_git_no_changes blank_git "" false _ H) eq_refl).
Defined.

(** ** [count_tokens] *)

(** C9: an unknown model name falls back to the "cl100k_base" encoding
    (the count is the one of that encoding), and the empty text counts
    zero tokens for every model. *)
Theorem C9_count_tokens_fallback {encoding : Type}
        (encoding_for_model : string -> option encoding)
        (get_encoding : string -> option encoding)
        (encode : encoding -> string -> list Z) (cl100k : encoding)
        (Hdefault : get_encoding "cl100k_base" = Some cl100k) (model text : string) :
  (encoding_for_model model = None ->
   count_tokens encoding_for_model get_encoding encode text model default_factor
   = py_int_of_float (PrimFloat.mul (float_of_nat (length (encode cl100k text))) default_factor))
  /\ ((forall e, encode e "" = []) ->
      count_tokens encoding_for_model get_encoding encode "" model default_factor = Some 0%Z).
Proof.
  unfold count_tokens; split.
  - intros H; rewrite H, Hdefault; reflexivity.
  - intros Hempty.
    destruct (encoding_for_model model) as [e|]; [|rewrite Hdefault];
      rewrite Hempty; vm_compute; reflexivity.
Qed.

Definition char_encode (_ : unit) (s : string) : list Z :=
  map (fun _ => 0%Z) (list_ascii_of_string s).

Lemma C9_witness :
  ((fun _ : string => Some tt) "cl100k_base" = Some tt
   /\ (fun _ : string => @None unit) "my-model" = None)
  /\ count_tokens (fun _ => None) (fun _ => Some tt) char_encode "abcdefghij" "my-model" default_factor
     = py_int_of_float (PrimFloat.mul (float_of_nat 10) default_factor).
Proof.
  split; [split; reflexivity|].
  exact (proj1 (C9_count_tokens_fallback (fun _ => None) (fun _ => Some tt) char_encode tt
                  eq_refl "my-model" "abcdefghij") eq_refl).
Defined.

(** ** Strategy choice in [assist] *)

Section StrategyChoice.
Context {encoding : Type}
        (encoding_for_model : string -> option encoding)
        (get_encoding : string -> option encoding)
        (encode : encoding -> string -> list Z)
        (full_t0 full_t1 full_t2 full_t3 disc_t1 disc_t2 : string).

(** C3: with [tree], [files] and the estimate [est] computed as in [main],
    an estimate strictly below the threshold gives the full-context prompt
    and an estimate equal to or above it gives the discovery prompt (in
    particular when it equals the threshold). *)
Theorem C3_strategy_threshold (root : path) (fs : node) (fsread : path -> file_state)
        (gitignore : option string) (output_name : string) (threshold : Z)
        (task : string) (ext : list string) (tree : string) (files : list path) (est : Z)
        (Htree : build_tree root (ignore_dirs_of root (load_gitignore_patterns gitignore))
                   (ignore_files_of root output_name) DEFAULT_ONLY_FROM_DIRS fs = Some tree)
        (Hfiles : collect_project_files root (ignore_dirs_of root (load_gitignore_patterns gitignore))
                    (ignore_files_of root output_name) DEFAULT_ONLY_FROM_DIRS fs ext = Some files)
        (Hest : count_tokens encoding_for_model get_encoding encode
                  (assist_full_context fsread tree task files) "gpt-4" default_factor = Some est) :
  let prompt := assist_prompt encoding_for_model get_encoding encode
                  full_t0 full_t1 full_t2 full_t3 disc_t1 disc_t2
                  root fs fsread gitignore output_name threshold task ext in
  ((est < threshold)%Z ->
   prompt = make_full_context_prompt root fsread full_t0 full_t1 full_t2 full_t3 task tree files)
  /\ ((threshold <= est)%Z -> prompt = Some (make_discovery_prompt disc_t1 disc_t2 task tree))
  /\ (est = threshold -> prompt = Some (make_discovery_prompt disc_t1 disc_t2 task tree)).
Proof.
  intros prompt; unfold prompt, assist_prompt; cbv zeta.
  rewrite Htree, Hfiles, Hest.
  split; [|split]; intros H.
  - apply Z.ltb_lt in H; rewrite H; reflexivity.
  - apply Z.ltb_ge in H; rewrite H; reflexivity.
  - subst est; rewrite Z.ltb_irrefl; reflexivity.
Qed.

End StrategyChoice.

(** The end-to-end example of the spec: [a.py], [b.md] and an ignored
    [build/c.py] under the root "/r". *)
Definition example_fs : node :=
  Dir true [("a.py", File); ("b.md", File); ("build", Dir true [("c.py", File)])].

Definition example_read (p : path) : file_state :=
  if list_eq_dec string_dec p ["r"; "a.py"] then Readable "x=1"
  else if list_eq_dec string_dec p ["r"; "b.md"] then Readable "# doc"
  else if list_eq_dec string_dec p ["r"; "build"; "c.py"] then Readable "y=2"
  else Missing.

Definition example_tree : string :=
  Eval vm_compute in
    match build_tree ["r"] (ignore_dirs_of ["r"] []) (ignore_files_of ["r"] "prompt.txt")
                     None example_fs with
    | Some t => t
    | None => ""
    end.

Definition example_files : list path := [["r"; "a.py"]; ["r"; "b.md"]].

Lemma C3_witness :
  (build_tree ["r"] (ignore_dirs_of ["r"] (load_gitignore_patterns None))
     (ignore_files_of ["r"] "prompt.txt") DEFAULT_ONLY_FROM_DIRS example_fs = Some example_tree
   /\ collect_project_files ["r"] (ignore_dirs_of ["r"] (load_gitignore_patterns None))
        (ignore_files_of ["r"] "prompt.txt") DEFAULT_ONLY_FROM_DIRS example_fs [".py"; ".md"]
      = Some example_files
   /\ count_tokens (fun _ => Some tt) (fun _ => Some tt) char_encode
        (assist_full_context example_read example_tree "task" example_files) "gpt-4" default_factor
      = Some 56%Z
   /\ (56 < 1000)%Z)
  /\ assist_prompt (fun _ => Some tt) (fun _ => Some tt) char_encode "" "" "" "" "" ""
       ["r"] example_fs example_read None "prompt.txt" 1000 "task" [".py"; ".md"]
     = make_full_context_prompt ["r"] example_read "" "" "" "" "task" example_tree example_files.
Proof.
  assert (H1 : build_tree ["r"] (ignore_dirs_of ["r"] (load_gitignore_patterns None))
     (ignore_files_of ["r"] "prompt.txt") DEFAULT_ONLY_FROM_DIRS example_fs = Some example_tree)
    by (vm_compute; reflexivity).
  assert (H2 : collect_project_files ["r"] (ignore_dirs_of ["r"] (load_gitignore_patterns None))
        (ignore_files_of ["r"] "prompt.txt") DEFAULT_ONLY_FROM_DIRS example_fs [".py"; ".md"]
      = Some example_files) by (vm_compute; reflexivity).
  assert (H3 : count_tokens (fun _ => Some tt) (fun _ => Some tt) char_encode
        (assist_full_context example_read example_tree "task" example_files) "gpt-4" default_factor
      = Some 56%Z) by (vm_compute; reflexivity).
  split; [split; [exact H1 | split; [exact H2 | split; [exact H3 | lia]]]|].
  exact (proj1 (C3_strategy_threshold (fun _ => Some tt) (fun _ => Some tt) char_encode
                  "" "" "" "" "" "" ["r"] example_fs example_read None "prompt.txt" 1000 "task"
                  [".py"; ".md"] example_tree example_files 56 H1 H2 H3) ltac:(lia)).
Defined.

(** ** Sorting, filtering and the walk: general lemmas *)

Lemma node_ind' (P : node -> Prop) (HF : P File)
      (HD : forall r ch, Forall (fun c => P (snd c)) ch -> P (Dir r ch)) :
  forall n, P n.
Proof.
  exact (fix go (n : node) : P n :=
           match n with
           | File => HF
           | Dir r ch =>
               HD r ch ((fix gol (l : list (string * node)) : Forall (fun c => P (snd c)) l :=
                           match l with
                           | [] => Forall_nil _
                           | (nm, c) :: l' => @Forall_cons _ (fun c => P (snd c)) (nm, c) l' (go c) (gol l')
                           end) ch)
           end).
Qed.

Lemma insert_by_perm {A : Type} (lt : A -> A -> bool) (x : A) (l : list A) :
  Permutation (insert_by lt x l) (x :: l).
Proof.
  induction l as [|y l IH]; simpl; [reflexivity|].
  destruct (lt x y); [reflexivity|].
  rewrite IH; apply perm_swap.
Qed.

Lemma sort_by_perm_acc {A : Type} (lt : A -> A -> bool) (l acc : list A) :
  Permutation (fold_left (fun acc x => insert_by lt x acc) l acc) (l ++ acc).
Proof.
  revert acc; induction l as [|x l IH]; intros acc; simpl; [reflexivity|].
  rewrite IH, insert_by_perm; symmetry; apply Permutation_middle.
Qed.

Lemma sort_by_perm {A : Type} (lt : A -> A -> bool) (l : list A) :
  Permutation (sort_by lt l) l.
Proof. unfold sort_by; rewrite sort_by_perm_acc, app_nil_r; reflexivity. Qed.

Lemma filter_opt_In {A : Type} (f : A -> option bool) (l l' : list A) (x : A) :
  filter_opt f l = Some l' -> In x l' -> In x l /\ f x = Some true.
Proof.
  revert l'; induction l as [|y l IH]; intros l' H Hx; simpl in H.
  - injection H as <-; destruct Hx.
  - destruct (f y) as [b|] eqn:Ey; [|discriminate].
    destruct (filter_opt f l) as [r|]; [|discriminate].
    injection H as <-.
    destruct b.
    + destruct Hx as [<-|Hx]; [split; [left; reflexivity | exact Ey]|].
      destruct (IH r eq_refl Hx); split; [right|]; assumption.
    + destruct (IH r eq_refl Hx); split; [right|]; assumption.
Qed.

Lemma filter_opt_keep {A : Type} (f : A -> option bool) (l l' : list A) (x : A) :
  filter_opt f l = Some l' -> In x l -> f x = Some true -> In x l'.
Proof.
  revert l'; induction l as [|y l IH]; intros l' H Hx Hf; simpl in H; [destruct Hx|].
  destruct (f y) as [b|] eqn:Ey; [|discriminate].
  destruct (filter_opt f l) as [r|]; [|discriminate].
  injection H as <-.
  destruct Hx as [<-|Hx].
  - rewrite Hf in Ey; injection Ey as <-; left; reflexivity.
  - specialize (IH r eq_refl Hx Hf); destruct b; [right|]; exact IH.
Qed.

Definition event_path (e : event) : path :=
  match e with Listed p => p | Line p _ _ => p end.

Lemma walk_dir_true (root : path) (ignore_dirs ignore_files : list path)
      (only_from : option (list string)) (children : list (string * node))
      (dir_path : path) (prefix : string) :
  walk root ignore_dirs ignore_files only_from (Dir true children) dir_path prefix
  = (filtered <- filter_opt (fun e => keep_entry root ignore_dirs ignore_files only_from
                                         (dir_path ++ [ename e]))
                   (sort_by entry_lt
                      (map (fun '(nm, c) =>
                              mk_entry nm c (walk root ignore_dirs ignore_files only_from c))
                           children)) ;;
     evs <- emit_entries dir_path prefix (length filtered) 0 filtered ;;
     Some (Listed dir_path :: evs)).
Proof. reflexivity. Qed.

Lemma In_listed (w : node -> path -> string -> option (list event))
      (children : list (string * node)) (e : entry) :
  In e (map (fun '(nm, c) => mk_entry nm c (w c)) children) ->
  In (ename e, enode e) children /\ ewalk e = w (enode e).
Proof.
  intros H; apply in_map_iff in H as [[nm c] [<- H]]; simpl.
  split; [exact H | reflexivity].
Qed.

(** An entry kept by the walk comes from the directory's children and is
    walked by [walk] itself. *)
Lemma In_filtered (root : path) (ignore_dirs ignore_files : list path)
      (only_from : option (list string)) (children : list (string * node))
      (dir_path : path) (filtered : list entry) (e : entry) :
  filter_opt (fun e => keep_entry root ignore_dirs ignore_files only_from (dir_path ++ [ename e]))
    (sort_by entry_lt (map (fun '(nm, c) =>
                              mk_entry nm c (walk root ignore_dirs ignore_files only_from c))
                           children)) = Some filtered ->
  In e filtered ->
  In (ename e, enode e) children
  /\ ewalk e = walk root ignore_dirs ignore_files only_from (enode e)
  /\ keep_entry root ignore_dirs ignore_files only_from (dir_path ++ [ename e]) = Some true.
Proof.
  intros Hf He; destruct (filter_opt_In _ _ _ _ Hf He) as [Hs Hk].
  apply (Permutation_in _ (sort_by_perm _ _)) in Hs.
  destruct (In_listed _ _ _ Hs); auto.
Qed.

Lemma emit_entries_Forall (Q : event -> Prop) (dir_path : path) (prefix : string)
      (count : nat) (es : list entry) :
  forall i evs,
  emit_entries dir_path prefix count i es = Some evs ->
  (forall e b t, In e es -> Q (Line (dir_path ++ [ename e]) b t)) ->
  (forall e s sub, In e es -> is_dir (enode e) = true ->
                   ewalk e (dir_path ++ [ename e]) s = Some sub -> Forall Q sub) ->
  Forall Q evs.
Proof.
  induction es as [|e es IH]; intros i evs H HL HS; simpl in H.
  - injection H as <-; constructor.
  - destruct (if is_dir (enode e) then _ else Some []) as [sub|] eqn:Es; [|discriminate].
    destruct (emit_entries dir_path prefix count (S i) es) as [rest|] eqn:Er; [|discriminate].
    injection H as <-.
    constructor; [apply HL; left; reflexivity|].
    apply Forall_app; split.
    + destruct (is_dir (enode e)) eqn:Ed; [|injection Es as <-; constructor].
      exact (HS e _ sub (or_introl eq_refl) Ed Es).
    + apply (IH (S i) rest Er); intros; [apply HL | eapply HS]; eauto; right; assumption.
Qed.

Lemma emit_entries_None (dir_path : path) (prefix : string) (count : nat) (es : list entry) (e : entry) :
  In e es -> is_dir (enode e) = true -> (forall s, ewalk e (dir_path ++ [ename e]) s = None) ->
  forall i, emit_entries dir_path prefix count i es = None.
Proof.
  intros Hin Hd Hw; induction es as [|e' es IH]; intros i; [destruct Hin|]; simpl.
  destruct Hin as [<-|Hin].
  - rewrite Hd, Hw; reflexivity.
  - destruct (if is_dir (enode e') then _ else Some []); [|reflexivity].
    rewrite (IH Hin); reflexivity.
Qed.

(** ** Ignored directories in [build_tree] and [collect_project_files] *)

(** No segment of [p] below [root] names an ignore directory. *)
Definition dir_name_free (root : path) (ignore_dirs : list path) (p : path) : Prop :=
  forall rel, p = root ++ rel -> is_dir_ignored rel ignore_dirs = false.

Lemma dir_name_free_root (root : path) (ignore_dirs : list path) :
  dir_name_free root ignore_dirs root.
Proof.
  intros rel H.
  rewrite <- (app_nil_r root) in H at 1; apply app_inv_head in H; subst rel; reflexivity.
Qed.

Lemma not_ignored_free (root : path) (ignore_dirs ignore_files : list path) (p : path) :
  _is_ignored p root ignore_dirs ignore_files = Some false -> dir_name_free root ignore_dirs p.
Proof.
  intros H rel ->; rewrite is_ignored_app in H; injection H as H.
  apply orb_false_iff in H as [H _]; exact H.
Qed.

Lemma keep_entry_not_ignored (root : path) (ignore_dirs ignore_files : list path)
      (only_from : option (list string)) (p : path) :
  keep_entry root ignore_dirs ignore_files only_from p = Some true ->
  _is_ignored p root ignore_dirs ignore_files = Some false.
Proof.
  unfold keep_entry; destruct (_is_ignored p root ignore_dirs ignore_files) as [[]|];
    simpl; congruence.
Qed.

(** Every directory [walk] lists and every line it emits is free of
    ignored directory names. *)
Lemma walk_dir_name_free (root : path) (ignore_dirs ignore_files : list path)
      (only_from : option (list string)) :
  forall n dir_path prefix evs,
  dir_name_free root ignore_dirs dir_path ->
  walk root ignore_dirs ignore_files only_from n dir_path prefix = Some evs ->
  Forall (fun e => dir_name_free root ignore_dirs (event_path e)) evs.
Proof.
  induction n as [|r children IH] using node_ind'; intros dir_path prefix evs Hd H;
    [discriminate|].
  destruct r; [|discriminate].
  rewrite walk_dir_true in H.
  destruct (filter_opt _ _) as [filtered|] eqn:Hf; [|discriminate].
  destruct (emit_entries _ _ _ _ _) as [evs'|] eqn:He; [|discriminate].
  injection H as <-; constructor; [exact Hd|].
  apply (emit_entries_Forall _ _ _ _ _ _ _ He).
  - intros e b t Hin; destruct (In_filtered _ _ _ _ _ _ _ e Hf Hin) as [_ [_ Hk]].
    exact (not_ignored_free _ _ _ _ (keep_entry_not_ignored _ _ _ _ _ Hk)).
  - intros e s sub Hin _ Hw.
    destruct (In_filtered _ _ _ _ _ _ _ e Hf Hin) as [Hc [Hew Hk]].
    rewrite Hew in Hw.
    apply Forall_forall with (x := (ename e, enode e)) in IH; [|exact Hc].
    exact (IH _ _ _ (not_ignored_free _ _ _ _ (keep_entry_not_ignored _ _ _ _ _ Hk)) Hw).
Qed.

Lemma collect_in_dir_not_ignored (root : path) (ignore_dirs ignore_files : list path)
      (d_path : path) (extensions : list string) :
  forall filenames out,
  collect_in_dir root ignore_dirs ignore_files d_path extensions filenames = Some out ->
  forall f, In f out -> _is_ignored f root ignore_dirs ignore_files = Some false.
Proof.
  induction filenames as [|fname rest IH]; intros out H f Hf; simpl in H.
  - injection H as <-; destruct Hf.
  - destruct (existsb (endswith fname) extensions).
    + destruct (_is_ignored (d_path ++ [fname]) root ignore_dirs ignore_files) as [ig|] eqn:Ei;
        [|discriminate].
      destruct (collect_in_dir root ignore_dirs ignore_files d_path extensions rest) as [more|] eqn:Em;
        [|discriminate].
      injection H as <-; apply in_app_or in Hf as [Hf|Hf]; [|exact (IH more eq_refl f Hf)].
      destruct ig; [destruct Hf|]; destruct Hf as [<-|[]]; exact Ei.
    + destruct (collect_in_dir root ignore_dirs ignore_files d_path extensions rest) as [more|] eqn:Em;
        [|discriminate].
      injection H as <-; exact (IH more eq_refl f Hf).
Qed.

Lemma collect_walk_not_ignored (root : path) (ignore_dirs ignore_files : list path)
      (only_from : option (list string)) (extensions : list string) :
  forall walked out,
  collect_walk root ignore_dirs ignore_files only_from extensions walked = Some out ->
  forall f, In f out -> _is_ignored f root ignore_dirs ignore_files = Some false.
Proof.
  induction walked as [|[[d_path dn] fns] rest IH]; intros out H f Hf; simpl in H.
  - injection H as <-; destruct Hf.
  - destruct (skip_dir root ignore_dirs ignore_files only_from d_path) as [skip|]; [|discriminate].
    destruct (if skip then Some [] else _) as [here|] eqn:Eh; [|discriminate].
    destruct (collect_walk root ignore_dirs ignore_files only_from extensions rest) as [more|] eqn:Em;
      [|discriminate].
    injection H as <-; apply in_app_or in Hf as [Hf|Hf]; [|exact (IH more eq_refl f Hf)].
    destruct skip; [injection Eh as <-; destruct Hf|].
    exact (collect_in_dir_not_ignored _ _ _ _ _ _ _ Eh f Hf).
Qed.

(** C2 (code_bug): [build_tree] never lists nor prints a path below a
    directory matching an ignore-dir entry, and no such file is collected;
    but the [os.walk] of [collect_project_files] still descends into it:
    on the example tree it lists "/r/build" although that directory is
    ignored. *)
Theorem C2_ignored_dirs_pruned (root : path) (ignore_dirs ignore_files : list path)
        (only_from : option (list string)) (fs : node) :
  (forall s, build_tree root ignore_dirs ignore_files only_from fs = Some s ->
   exists evs, walk root ignore_dirs ignore_files only_from fs root "" = Some evs
     /\ s = String.concat nl (tree_lines evs)
     /\ forall e rel, In e evs -> event_path e = root ++ rel ->
                      is_dir_ignored rel ignore_dirs = false)
  /\ (forall ext collected,
      collect_project_files root ignore_dirs ignore_files only_from fs ext = Some collected ->
      forall f rel, In f collected -> f = root ++ rel -> is_dir_ignored rel ignore_dirs = false)
  /\ In (["r"; "build"], [], ["c.py"]) (os_walk example_fs ["r"])
  /\ _is_ignored ["r"; "build"] ["r"] (ignore_dirs_of ["r"] []) (ignore_files_of ["r"] "prompt.txt")
     = Some true.
Proof.
  split; [|split; [|split]].
  - intros s H; unfold build_tree in H.
    destruct (walk root ignore_dirs ignore_files only_from fs root "") as [evs|] eqn:Ew;
      [|discriminate].
    injection H as <-; exists evs; split; [reflexivity | split; [reflexivity|]].
    intros e rel Hin Hp.
    pose proof (walk_dir_name_free _ _ _ _ _ _ _ _ (dir_name_free_root root ignore_dirs) Ew) as HF.
    rewrite Forall_forall in HF; exact (HF e Hin rel Hp).
  - intros ext collected H f rel Hin Hp; unfold collect_project_files in H.
    destruct (collect_walk _ _ _ _ _ _) as [pf|] eqn:Ec; [|discriminate].
    injection H as <-.
    apply (Permutation_in _ (sort_by_perm _ _)) in Hin.
    exact (not_ignored_free _ _ _ _ (collect_walk_not_ignored _ _ _ _ _ _ _ Ec f Hin) rel Hp).
  - simpl; tauto.
  - vm_compute; reflexivity.
Qed.

Lemma C2_witness :
  build_tree ["r"] (ignore_dirs_of ["r"] []) (ignore_files_of ["r"] "prompt.txt") None example_fs
    = Some example_tree
  /\ exists evs, walk ["r"] (ignore_dirs_of ["r"] []) (ignore_files_of ["r"] "prompt.txt") None
                   example_fs ["r"] "" = Some evs
       /\ example_tree = String.concat nl (tree_lines evs)
       /\ forall e rel, In e evs -> event_path e = ["r"] ++ rel ->
                        is_dir_ignored rel (ignore_dirs_of ["r"] []) = false.
Proof.
  assert (H : build_tree ["r"] (ignore_dirs_of ["r"] []) (ignore_files_of ["r"] "prompt.txt") None
                example_fs = Some example_tree) by (vm_compute; reflexivity).
  split; [exact H|].
  exact (proj1 (C2_ignored_dirs_pruned ["r"] (ignore_dirs_of ["r"] []) (ignore_files_of ["r"] "prompt.txt")
                  None example_fs) example_tree H).
Defined.

(** ** Unreadable directories in [build_tree] *)

Definition example_locked_fs : node :=
  Dir true [("secret", Dir false []); ("a.py", File)].

(** C6 (counterexample): a root holding one unreadable subdirectory
    "secret" yields no tree: the PermissionError of [iterdir] escapes
    [build_tree]. *)
Lemma C6_counterexample :
  build_tree ["r"] (ignore_dirs_of ["r"] []) (ignore_files_of ["r"] "prompt.txt") None
             example_locked_fs = None.
Proof. vm_compute; reflexivity. Qed.

(** C6 (amended): listing an unreadable directory raises; when a kept
    subdirectory of a listed directory raises, so does the listing of its
    parent; hence a kept unreadable subdirectory at any depth makes
    [build_tree] raise instead of returning a tree. *)
Theorem C6_unreadable_dir_raises (root : path) (ignore_dirs ignore_files : list path)
        (only_from : option (list string)) :
  (forall ch dir_path prefix,
     walk root ignore_dirs ignore_files only_from (Dir false ch) dir_path prefix = None)
  /\ (forall children dir_path prefix nm c,
      In (nm, c) children -> is_dir c = true ->
      keep_entry root ignore_dirs ignore_files only_from (dir_path ++ [nm]) = Some true ->
      (forall s, walk root ignore_dirs ignore_files only_from c (dir_path ++ [nm]) s = None) ->
      walk root ignore_dirs ignore_files only_from (Dir true children) dir_path prefix = None)
  /\ (forall fs, walk root ignore_dirs ignore_files only_from fs root "" = None ->
      build_tree root ignore_dirs ignore_files only_from fs = None).
Proof.
  split; [reflexivity|split].
  - intros children dir_path prefix nm c Hin Hd Hk Hw.
    rewrite walk_dir_true.
    destruct (filter_opt _ _) as [filtered|] eqn:Hf; [|reflexivity].
    set (e := mk_entry nm c (walk root ignore_dirs ignore_files only_from c)).
    assert (He : In e filtered).
    { apply (filter_opt_keep _ _ _ _ Hf); [|exact Hk].
      apply (Permutation_in _ (Permutation_sym (sort_by_perm _ _))).
      apply in_map_iff; exists (nm, c); split; [reflexivity | exact Hin]. }
    rewrite (emit_entries_None dir_path prefix (length filtered) filtered e He Hd Hw).
    reflexivity.
  - intros fs H; unfold build_tree; rewrite H; reflexivity.
Qed.

Lemma C6_witness :
  (In ("secret", Dir false []) [("secret", Dir false []); ("a.py", File)]
   /\ is_dir (Dir false []) = true
   /\ keep_entry ["r"] (ignore_dirs_of ["r"] []) (ignore_files_of ["r"] "prompt.txt") None
        (["r"] ++ ["secret"]) = Some true)
  /\ walk ["r"] (ignore_dirs_of ["r"] []) (ignore_files_of ["r"] "prompt.txt") None
       example_locked_fs ["r"] "" = None.
Proof.
  assert (H1 : In ("secret", Dir false []) [("secret", Dir false []); ("a.py", File)])
    by (left; reflexivity).
  assert (H3 : keep_entry ["r"] (ignore_dirs_of ["r"] []) (ignore_files_of ["r"] "prompt.txt") None
                 (["r"] ++ ["secret"]) = Some true) by (vm_compute; reflexivity).
  split; [split; [exact H1 | split; [reflexivity | exact H3]]|].
  exact (proj1 (proj2 (C6_unreadable_dir_raises ["r"] (ignore_dirs_of ["r"] [])
                         (ignore_files_of ["r"] "prompt.txt") None))
           _ ["r"] "" "secret" (Dir false []) H1 eq_refl H3 (fun s => eq_refl)).
Defined.

(** ** Orders: [key_lt] and [path_lt] are strict weak orders *)

Lemma ascii_compare_lt_trans (a b c : ascii) :
  Ascii.compare a b = Lt -> Ascii.compare b c = Lt -> Ascii.compare a c = Lt.
Proof.
  unfold Ascii.compare; rewrite !N.compare_lt_iff; apply N.lt_trans.
Qed.

Lemma ascii_compare_refl (a : ascii) : Ascii.compare a a = Eq.
Proof. unfold Ascii.compare; apply N.compare_refl. Qed.

Lemma string_compare_refl (s : string) : String.compare s s = Eq.
Proof. induction s as [|a s IH]; simpl; [reflexivity|]. rewrite ascii_compare_refl; exact IH. Qed.

Lemma string_compare_lt_trans (s1 s2 s3 : string) :
  String.compare s1 s2 = Lt -> String.compare s2 s3 = Lt -> String.compare s1 s3 = Lt.
Proof.
  revert s2 s3; induction s1 as [|a s1 IH]; intros [|b s2] [|c s3]; simpl;
    try discriminate; try reflexivity.
  destruct (Ascii.compare a b) eqn:Eab; try discriminate;
    destruct (Ascii.compare b c) eqn:Ebc; try discriminate; intros H1 H2.
  - apply Ascii.compare_eq_iff in Eab, Ebc; subst.
    rewrite ascii_compare_refl; exact (IH _ _ H1 H2).
  - apply Ascii.compare_eq_iff in Eab; subst; rewrite Ebc; reflexivity.
  - apply Ascii.compare_eq_iff in Ebc; subst; rewrite Eab; reflexivity.
  - rewrite (ascii_compare_lt_trans _ _ _ Eab Ebc); reflexivity.
Qed.

Lemma string_ltb_asym (s1 s2 : string) : String.ltb s1 s2 = true -> String.ltb s2 s1 = false.
Proof.
  unfold String.ltb; rewrite (String.compare_antisym s2 s1).
  destruct (String.compare s1 s2); simpl; congruence.
Qed.

Lemma string_ltb_false_trans (s1 s2 s3 : string) :
  String.ltb s2 s1 = false -> String.ltb s3 s2 = false -> String.ltb s3 s1 = false.
Proof.
  unfold String.ltb; intros H21 H32.
  destruct (String.compare s3 s1) eqn:E31; try reflexivity.
  destruct (String.compare s2 s1) eqn:E21; try discriminate.
  - apply String.compare_eq_iff in E21; subst; rewrite E31 in H32; discriminate.
  - assert (E12 : String.compare s1 s2 = Lt)
      by (rewrite String.compare_antisym, E21; reflexivity).
    rewrite (string_compare_lt_trans _ _ _ E31 E12) in H32; discriminate.
Qed.

Lemma key_lt_asym (k1 k2 : bool * string) : key_lt k1 k2 = true -> key_lt k2 k1 = false.
Proof.
  destruct k1 as [[|] s1], k2 as [[|] s2]; simpl; try discriminate; try reflexivity;
    rewrite ?orb_false_r, ?andb_true_l; apply string_ltb_asym.
Qed.

Lemma key_lt_false_trans (k1 k2 k3 : bool * string) :
  key_lt k2 k1 = false -> key_lt k3 k2 = false -> key_lt k3 k1 = false.
Proof.
  destruct k1 as [[|] s1], k2 as [[|] s2], k3 as [[|] s3]; simpl; try discriminate;
    try reflexivity; rewrite ?orb_false_r, ?andb_true_l, ?andb_false_l;
    try apply string_ltb_false_trans; intros; try reflexivity; try discriminate.
Qed.

Lemma path_compare_antisym (p q : path) : path_compare p q = CompOpp (path_compare q p).
Proof.
  revert q; induction p as [|x p IH]; intros [|y q]; simpl; try reflexivity.
  rewrite (String.compare_antisym y x).
  destruct (String.compare x y) eqn:E; simpl; try reflexivity.
  apply IH.
Qed.

Lemma path_compare_eq (p q : path) : path_compare p q = Eq -> p = q.
Proof.
  revert q; induction p as [|x p IH]; intros [|y q]; simpl; try discriminate; try reflexivity.
  destruct (String.compare x y) eqn:E; try discriminate.
  intro H; apply String.compare_eq_iff in E; subst; f_equal; apply IH, H.
Qed.

Lemma path_compare_lt_trans (p1 p2 p3 : path) :
  path_compare p1 p2 = Lt -> path_compare p2 p3 = Lt -> path_compare p1 p3 = Lt.
Proof.
  revert p2 p3; induction p1 as [|a p1 IH]; intros [|b p2] [|c p3]; simpl;
    try discriminate; try reflexivity.
  destruct (String.compare a b) eqn:Eab; try discriminate;
    destruct (String.compare b c) eqn:Ebc; try discriminate; intros H1 H2.
  - apply String.compare_eq_iff in Eab, Ebc; subst.
    rewrite string_compare_refl; exact (IH _ _ H1 H2).
  - apply String.compare_eq_iff in Eab; subst; rewrite Ebc; reflexivity.
  - apply String.compare_eq_iff in Ebc; subst; rewrite Eab; reflexivity.
  - rewrite (string_compare_lt_trans _ _ _ Eab Ebc); reflexivity.
Qed.

Lemma path_lt_asym (p q : path) : path_lt p q = true -> path_lt q p = false.
Proof.
  unfold path_lt; rewrite (path_compare_antisym q p).
  destruct (path_compare p q); simpl; congruence.
Qed.

Lemma path_lt_false_trans (p1 p2 p3 : path) :
  path_lt p2 p1 = false -> path_lt p3 p2 = false -> path_lt p3 p1 = false.
Proof.
  unfold path_lt; intros H21 H32.
  destruct (path_compare p3 p1) eqn:E31; try reflexivity.
  destruct (path_compare p2 p1) eqn:E21; try discriminate.
  - apply path_compare_eq in E21; subst; rewrite E31 in H32; discriminate.
  - assert (E12 : path_compare p1 p2 = Lt)
      by (rewrite path_compare_antisym, E21; reflexivity).
    rewrite (path_compare_lt_trans _ _ _ E31 E12) in H32; discriminate.
Qed.

(** [sort_by] returns a list sorted for the order it is given. *)

Section SortedSort.
Context {A : Type} (lt : A -> A -> bool)
        (lt_asym : forall x y, lt x y = true -> lt y x = false)
        (le_trans : forall x y z, lt y x = false -> lt z y = false -> lt z x = false).

Let le (x y : A) : Prop := lt y x = false.

Lemma insert_by_HdRel (x y : A) (l : list A) :
  HdRel le y l -> le y x -> HdRel le y (insert_by lt x l).
Proof.
  destruct l as [|z l]; simpl; intros H Hyx.
  - constructor; exact Hyx.
  - destruct (lt x z); constructor; [exact Hyx | inversion H; assumption].
Qed.

Lemma insert_by_sorted (x : A) (l : list A) : Sorted le l -> Sorted le (insert_by lt x l).
Proof.
  induction l as [|y l IH]; simpl; intro Hs.
  - repeat constructor.
  - destruct (lt x y) eqn:Exy.
    + constructor; [exact Hs | constructor; unfold le; apply lt_asym, Exy].
    + inversion Hs; subst.
      constructor; [apply IH; assumption | apply insert_by_HdRel; assumption].
Qed.

Lemma sort_by_sorted (l : list A) : StronglySorted le (sort_by lt l).
Proof.
  apply Sorted_StronglySorted; [unfold Relations_1.Transitive, le; intros x y z H1 H2; exact (le_trans _ _ _ H1 H2) |].
  unfold sort_by.
  assert (G : forall acc, Sorted le acc -> Sorted le (fold_left (fun acc x => insert_by lt x acc) l acc)).
  { induction l as [|x l IH]; simpl; intros acc H; [exact H | apply IH, insert_by_sorted, H]. }
  apply G; constructor.
Qed.

End SortedSort.

(** ** Order of the children in the tree *)

Lemma StronglySorted_map {A B : Type} (R : B -> B -> Prop) (f : A -> B) (l : list A) :
  StronglySorted (fun a b => R (f a) (f b)) l -> StronglySorted R (map f l).
Proof.
  induction l as [|x l IH]; simpl; intros H; constructor; inversion H; subst.
  - apply IH; assumption.
  - apply Forall_map; assumption.
Qed.

Lemma filter_opt_StronglySorted {A : Type} (R : A -> A -> Prop) (f : A -> option bool) (l l' : list A) :
  StronglySorted R l -> filter_opt f l = Some l' -> StronglySorted R l'.
Proof.
  revert l'; induction l as [|x l IH]; intros l' Hs H; simpl in H.
  - injection H as <-; constructor.
  - inversion Hs as [|? ? Hs' Hx]; subst.
    destruct (f x) as [b|] eqn:Ex; [|discriminate].
    destruct (filter_opt f l) as [r|] eqn:Er; [|discriminate].
    injection H as <-.
    destruct b; [|exact (IH r Hs' eq_refl)].
    constructor; [exact (IH r Hs' eq_refl)|].
    apply Forall_forall; intros y Hy.
    destruct (filter_opt_In _ _ _ _ Er Hy) as [Hy' _].
    exact (proj1 (Forall_forall _ _) Hx y Hy').
Qed.

Lemma filter_opt_NoDup_map {A B : Type} (g : A -> B) (f : A -> option bool) (l l' : list A) :
  NoDup (map g l) -> filter_opt f l = Some l' -> NoDup (map g l').
Proof.
  revert l'; induction l as [|x l IH]; intros l' Hn H; simpl in H.
  - injection H as <-; constructor.
  - simpl in Hn; apply NoDup_cons_iff in Hn as [Hx Hn].
    destruct (f x) as [b|] eqn:Ex; [|discriminate].
    destruct (filter_opt f l) as [r|] eqn:Er; [|discriminate].
    injection H as <-.
    destruct b; [|exact (IH r Hn eq_refl)].
    simpl; constructor; [|exact (IH r Hn eq_refl)].
    intros Hin; apply in_map_iff in Hin as [y [Hy Hyr]].
    destruct (filter_opt_In _ _ _ _ Er Hyr) as [Hyl _].
    apply Hx; rewrite <- Hy; apply in_map; exact Hyl.
Qed.

Lemma nodupb_NoDup (l : list string) : nodupb l = true -> NoDup l.
Proof.
  induction l as [|x l IH]; simpl; intros H; constructor.
  - apply andb_true_iff in H as [H _]; apply negb_true_iff in H.
    intros Hin; assert (existsb (String.eqb x) l = true) as E
      by (apply existsb_exists; exists x; split; [exact Hin | apply String.eqb_refl]).
    congruence.
  - apply IH; apply andb_true_iff in H as [_ H]; exact H.
Qed.

Lemma strip_prefix_Some (d p q : path) : strip_prefix d p = Some q -> p = d ++ q.
Proof.
  revert p; induction d as [|x d IH]; intros [|y p]; simpl; try discriminate.
  - intros H; injection H as <-; reflexivity.
  - intros H; injection H as <-; reflexivity.
  - destruct (String.eqb x y) eqn:E; [|discriminate].
    apply String.eqb_eq in E; subst; intros H; f_equal; apply IH, H.
Qed.

Lemma under_app (q x : path) (e : event) : under (q ++ x) e -> under q e.
Proof.
  destruct e as [p|p b t]; simpl.
  - intros [r ->]; exists (x ++ r); rewrite app_assoc; reflexivity.
  - intros [r [Hr ->]]; exists (x ++ r); split; [|rewrite app_assoc; reflexivity].
    destruct x; simpl; [exact Hr | discriminate].
Qed.

Lemma strip_prefix_app (d q : path) : strip_prefix d (d ++ q) = Some q.
Proof. exact (relative_to_app d q). Qed.

Lemma children_keys_app (d : path) (l1 l2 : list event) :
  children_keys d (l1 ++ l2) = children_keys d l1 ++ children_keys d l2.
Proof. unfold children_keys; apply flat_map_app. Qed.

Lemma child_key_self (d : path) (nm : string) (b : bool) (t : string) :
  child_key d (Line (d ++ [nm]) b t) = [(b, str_lower nm)].
Proof. unfold child_key; rewrite strip_prefix_app; reflexivity. Qed.

Lemma child_key_other (d d' : path) (nm : string) (b : bool) (t : string) :
  d' <> d -> child_key d' (Line (d ++ [nm]) b t) = [].
Proof.
  intros Hne; unfold child_key.
  destruct (strip_prefix d' (d ++ [nm])) as [[|x [|y l]]|] eqn:E; try reflexivity.
  apply strip_prefix_Some, app_inj_tail in E as [E _]; congruence.
Qed.

Lemma children_keys_under_nil (d : path) (nm : string) (sub : list event) :
  Forall (under (d ++ [nm])) sub -> children_keys d sub = [].
Proof.
  induction sub as [|e sub IH]; intros H; [reflexivity|].
  inversion H as [|? ? He Hs]; subst.
  change (children_keys d (e :: sub)) with (child_key d e ++ children_keys d sub).
  rewrite (IH Hs), app_nil_r.
  destruct e as [p|p b t]; [reflexivity|].
  destruct He as [r [Hr ->]]; unfold child_key.
  rewrite <- app_assoc; simpl; rewrite strip_prefix_app.
  destruct r; [congruence | reflexivity].
Qed.

Lemma children_keys_under_ext (q d' : path) (sub : list event) :
  Forall (under q) sub -> children_keys d' sub <> [] -> exists r, d' = q ++ r.
Proof.
  induction sub as [|e sub IH]; intros H Hne; [contradiction|].
  inversion H as [|? ? He Hs]; subst.
  change (children_keys d' (e :: sub)) with (child_key d' e ++ children_keys d' sub) in Hne.
  destruct (child_key d' e) as [|k ks] eqn:Ek; [exact (IH Hs Hne)|].
  destruct e as [p|p b t]; [discriminate|].
  unfold child_key in Ek.
  destruct (strip_prefix d' p) as [[|x [|y l']]|] eqn:E; try discriminate.
  apply strip_prefix_Some in E.
  destruct He as [r [Hr Hp]]; rewrite Hp in E.
  destruct (exists_last Hr) as [r' [z ->]].
  rewrite app_assoc in E; apply app_inj_tail in E as [E _].
  exists r'; symmetry; exact E.
Qed.

Lemma prefix_name_eq (d r1 r2 : path) (a b : string) :
  (d ++ [a]) ++ r1 = (d ++ [b]) ++ r2 -> a = b.
Proof.
  rewrite <- !app_assoc; intros H; apply app_inv_head in H; simpl in H.
  injection H as H _; exact H.
Qed.

Section EmitSorted.
Context (d : path) (pre : string) (count : nat).

Lemma emit_entries_sorted (es : list entry) :
  forall i evs,
  emit_entries d pre count i es = Some evs ->
  NoDup (map ename es) ->
  (forall e s sub, In e es -> is_dir (enode e) = true -> ewalk e (d ++ [ename e]) s = Some sub ->
     (forall d', StronglySorted key_le (children_keys d' sub))
     /\ Forall (under (d ++ [ename e])) sub) ->
  children_keys d evs = map entry_key es
  /\ Forall (under d) evs
  /\ (forall d', d' <> d -> children_keys d' evs <> [] ->
                 exists e r, In e es /\ d' = (d ++ [ename e]) ++ r)
  /\ (forall d', d' <> d -> StronglySorted key_le (children_keys d' evs)).
Proof.
  induction es as [|e es IH]; intros i evs H Hn HS; simpl in H.
  - injection H as <-; split; [reflexivity|]; split; [constructor|]; split.
    + intros d' _ Hne; contradiction.
    + intros; constructor.
  - destruct (if is_dir (enode e) then _ else Some []) as [sub|] eqn:Es; [|discriminate].
    destruct (emit_entries d pre count (S i) es) as [rest|] eqn:Er; [|discriminate].
    injection H as <-.
    simpl in Hn; apply NoDup_cons_iff in Hn as [Hnin Hn].
    assert (Hsub : (forall d', StronglySorted key_le (children_keys d' sub))
                   /\ Forall (under (d ++ [ename e])) sub).
    { destruct (is_dir (enode e)) eqn:Ed.
      - exact (HS e _ sub (or_introl eq_refl) Ed Es).
      - injection Es as <-; split; [intros; constructor | constructor]. }
    destruct Hsub as [Hsub_sorted Hsub_under].
    destruct (IH (S i) rest Er Hn (fun e' s sub' Hin => HS e' s sub' (or_intror Hin)))
      as [Hd [Hu [Hx Hso]]].
    set (here := Line (d ++ [ename e]) (is_file (enode e)) _).
    assert (Hck : forall d', children_keys d' (here :: sub ++ rest)
                             = child_key d' here ++ children_keys d' sub ++ children_keys d' rest)
      by (intros; change (children_keys d' (here :: sub ++ rest))
                   with (child_key d' here ++ children_keys d' (sub ++ rest));
          rewrite children_keys_app; reflexivity).
    split; [|split; [|split]].
    + rewrite Hck, Hd, (children_keys_under_nil _ _ _ Hsub_under).
      unfold here; rewrite child_key_self; reflexivity.
    + constructor; [exists [ename e]; split; [discriminate | reflexivity]|].
      apply Forall_app; split; [|exact Hu].
      eapply Forall_impl; [|exact Hsub_under]; intros a; apply under_app.
    + intros d' Hne Hk; rewrite Hck in Hk; unfold here in Hk; rewrite child_key_other in Hk by exact Hne.
      simpl in Hk.
      destruct (children_keys d' sub) eqn:Ek.
      * destruct (Hx d' Hne Hk) as [e' [r [Hin Hr]]]; exists e', r; split; [right|]; assumption.
      * destruct (children_keys_under_ext _ d' _ Hsub_under) as [r Hr]; [rewrite Ek; discriminate|].
        exists e, r; split; [left; reflexivity | exact Hr].
    + intros d' Hne; rewrite Hck; unfold here; rewrite child_key_other by exact Hne; simpl.
      destruct (children_keys d' sub) eqn:Ek; [exact (Hso d' Hne)|].
      destruct (children_keys_under_ext _ d' _ Hsub_under) as [r Hr]; [rewrite Ek; discriminate|].
      destruct (children_keys d' rest) eqn:Ekr.
      * rewrite app_nil_r, <- Ek; apply Hsub_sorted.
      * exfalso. destruct (Hx d' Hne) as [e' [r' [Hin Hr']]]; [rewrite Ekr; discriminate|].
        rewrite Hr in Hr'; apply prefix_name_eq in Hr'.
        apply Hnin; rewrite Hr'; apply in_map; exact Hin.
Qed.

End EmitSorted.

Lemma walk_children_sorted (root : path) (ignore_dirs ignore_files : list path)
      (only_from : option (list string)) (n : node) :
  names_unique n = true -> forall d pre evs,
  walk root ignore_dirs ignore_files only_from n d pre = Some evs ->
  (forall d', StronglySorted key_le (children_keys d' evs)) /\ Forall (under d) evs.
Proof.
  induction n as [|r ch IH] using node_ind'; intros Hun d pre evs H; [discriminate|].
  destruct r; [|discriminate].
  rewrite walk_dir_true in H.
  destruct (filter_opt _ _) as [filtered|] eqn:Hf; [|discriminate].
  destruct (emit_entries d pre (length filtered) 0 filtered) as [evs'|] eqn:He; [|discriminate].
  injection H as <-.
  simpl in Hun; apply andb_true_iff in Hun as [Hnd Hall].
  assert (Hnl : NoDup (map ename (sort_by entry_lt
             (map (fun '(nm, c) => mk_entry nm c (walk root ignore_dirs ignore_files only_from c)) ch)))).
  { eapply Permutation_NoDup; [apply Permutation_map; symmetry; apply sort_by_perm|].
    rewrite map_map.
    replace (map _ ch) with (map fst ch) by (apply map_ext; intros [nm c]; reflexivity).
    apply nodupb_NoDup; exact Hnd. }
  pose proof (sort_by_sorted entry_lt (fun x y => key_lt_asym _ _)
                (fun x y z => key_lt_false_trans _ _ _)
                (map (fun '(nm, c) => mk_entry nm c (walk root ignore_dirs ignore_files only_from c)) ch))
    as Hss.
  destruct (emit_entries_sorted d pre (length filtered) filtered 0 evs' He
              (filter_opt_NoDup_map _ _ _ _ Hnl Hf))
    as [Hd [Hu [_ Hso]]].
  { intros e s sub Hin _ Hw.
    destruct (In_filtered _ _ _ _ _ _ _ _ Hf Hin) as [Hch [Hew _]].
    rewrite Hew in Hw.
    exact (proj1 (Forall_forall _ _) IH _ Hch (proj1 (forallb_forall _ _) Hall _ Hch) _ _ _ Hw). }
  split.
  - intros d'; change (children_keys d' (Listed d :: evs')) with (children_keys d' evs').
    destruct (list_eq_dec string_dec d' d) as [->|Hne]; [|exact (Hso d' Hne)].
    rewrite Hd; apply StronglySorted_map.
    eapply filter_opt_StronglySorted; [exact Hss | exact Hf].
  - constructor; [exists []; rewrite app_nil_r; reflexivity | exact Hu].
Qed.

Lemma StronglySorted_nth {A : Type} (R : A -> A -> Prop) (l : list A) :
  StronglySorted R l -> forall i j a b, i < j -> nth_error l i = Some a -> nth_error l j = Some b -> R a b.
Proof.
  induction l as [|x l IH]; intros Hs i j a b Hij Ha Hb; [destruct i; discriminate|].
  inversion Hs as [|? ? Hs' Hx]; subst.
  destruct j as [|j]; [lia|].
  destruct i as [|i].
  - injection Ha as <-; simpl in Hb.
    apply nth_error_In in Hb; exact (proj1 (Forall_forall _ _) Hx b Hb).
  - simpl in Ha, Hb; apply (IH Hs' i j); [lia | exact Ha | exact Hb].
Qed.

Lemma key_le_spec (b1 b2 : bool) (s1 s2 : string) :
  key_le (b1, s1) (b2, s2) -> (b1 = true -> b2 = true) /\ (b1 = b2 -> String.leb s1 s2 = true).
Proof.
  unfold key_le, key_lt; intros H; split.
  - intros ->; destruct b2; [reflexivity | discriminate].
  - intros <-; assert (H' : String.ltb s2 s1 = false) by (destruct b1; exact H).
    unfold String.ltb in H'; clear H; unfold String.leb.
    rewrite String.compare_antisym.
    destruct (String.compare s2 s1); simpl; congruence.
Qed.

(** C4: in the trace of [walk] from the root (the lines of [build_tree]),
    the lines of the children of any directory [d] come in the order of
    the key [(is_file, name.lower())]: after a file line no directory line
    of the same parent follows, and two children of the same kind come in
    ascending order of their lowercased names.  The file system is assumed
    to hold no two same-named entries in one directory. *)
Theorem C4_children_sorted (root : path) (ignore_dirs ignore_files : list path)
        (only_from : option (list string)) (fs : node) (evs : list event) :
  names_unique fs = true ->
  walk root ignore_dirs ignore_files only_from fs root "" = Some evs ->
  build_tree root ignore_dirs ignore_files only_from fs = Some (String.concat nl (tree_lines evs))
  /\ forall d i j b1 s1 b2 s2, i < j ->
     nth_error (children_keys d evs) i = Some (b1, s1) ->
     nth_error (children_keys d evs) j = Some (b2, s2) ->
     (b1 = true -> b2 = true) /\ (b1 = b2 -> String.leb s1 s2 = true).
Proof.
  intros Hun Hw; split; [unfold build_tree; rewrite Hw; reflexivity|].
  intros d i j b1 s1 b2 s2 Hij H1 H2.
  apply key_le_spec.
  exact (StronglySorted_nth _ _ (proj1 (walk_children_sorted _ _ _ _ fs Hun _ _ _ Hw) d)
           i j _ _ Hij H1 H2).
Qed.

(** C4 on [example_sort_fs]. *)
Lemma C4_witness :
  names_unique example_sort_fs = true
  /\ walk ["r"] (ignore_dirs_of ["r"] []) (ignore_files_of ["r"] "prompt.txt") None
          example_sort_fs ["r"] "" = Some example_sort_evs
  /\ children_keys ["r"] example_sort_evs
     = [(false, "src"); (false, "zeta"); (true, "a.md"); (true, "b.py")]
  /\ children_keys ["r"; "src"] example_sort_evs = [(true, "x.py"); (true, "y.py")]
  /\ (forall d i j b1 s1 b2 s2, i < j ->
      nth_error (children_keys d example_sort_evs) i = Some (b1, s1) ->
      nth_error (children_keys d example_sort_evs) j = Some (b2, s2) ->
      (b1 = true -> b2 = true) /\ (b1 = b2 -> String.leb s1 s2 = true)).
Proof.
  assert (Hu : names_unique example_sort_fs = true) by reflexivity.
  assert (Hw : walk ["r"] (ignore_dirs_of ["r"] []) (ignore_files_of ["r"] "prompt.txt") None
                    example_sort_fs ["r"] "" = Some example_sort_evs) by (vm_compute; reflexivity).
  split; [exact Hu|]; split; [exact Hw|]; split; [vm_compute; reflexivity|];
    split; [vm_compute; reflexivity|].
  exact (proj2 (C4_children_sorted _ _ _ _ _ _ Hu Hw)).
Defined.

(** ** Order of [collect_project_files] *)

(** C5 (counterexample): [r/a/x.py] comes before [r/a.py] in the result,
    since paths compare by components ("a" < "a.py"), while the rendered
    string "/r/a.py" is smaller than "/r/a/x.py" ('.' < '/'). *)
Lemma C5_counterexample :
  collect_project_files ["r"] (ignore_dirs_of ["r"] []) (ignore_files_of ["r"] "prompt.txt") None
    example_prefix_fs [".py"] = Some [["r"; "a"; "x.py"]; ["r"; "a.py"]]
  /\ path_render ["r"; "a"; "x.py"] = "/r/a/x.py"
  /\ path_render ["r"; "a.py"] = "/r/a.py"
  /\ String.ltb "/r/a.py" "/r/a/x.py" = true.
Proof.
  refine (conj _ (conj _ (conj _ _))); vm_compute; reflexivity.
Qed.

Lemma path_le_antisym (p q : path) : path_le p q -> path_le q p -> p = q.
Proof.
  unfold path_le, path_lt; intros H1 H2.
  destruct (path_compare p q) eqn:E.
  - exact (path_compare_eq _ _ E).
  - discriminate.
  - rewrite path_compare_antisym, E in H1; discriminate.
Qed.

Lemma StronglySorted_perm_unique (l1 l2 : list path) :
  StronglySorted path_le l1 -> StronglySorted path_le l2 -> Permutation l1 l2 -> l1 = l2.
Proof.
  revert l2; induction l1 as [|a l1 IH]; intros l2 H1 H2 Hp.
  - symmetry; apply Permutation_nil, Hp.
  - destruct l2 as [|b l2]; [apply Permutation_sym, Permutation_nil in Hp; discriminate|].
    inversion H1 as [|? ? H1' Ha]; inversion H2 as [|? ? H2' Hb]; subst.
    assert (Hab : a = b).
    { assert (Ina : In a (b :: l2)) by (apply (Permutation_in _ Hp); left; reflexivity).
      assert (Inb : In b (a :: l1)) by (apply (Permutation_in _ (Permutation_sym Hp)); left; reflexivity).
      destruct Ina as [->|Ina]; [reflexivity|].
      destruct Inb as [->|Inb]; [reflexivity|].
      apply path_le_antisym.
      - exact (proj1 (Forall_forall _ _) Ha b Inb).
      - exact (proj1 (Forall_forall _ _) Hb a Ina). }
    subst; f_equal; apply IH; [exact H1' | exact H2' | exact (Permutation_cons_inv Hp)].
Qed.

(** C5 (amended): the result of [collect_project_files] is a permutation
    of the collected paths sorted ascending in [Path] order (lexicographic
    on the list of components, each compared by code point), and it is the
    same for any order in which [os.walk] yields those paths. *)
Theorem C5_sorted_by_components (root : path) (ignore_dirs ignore_files : list path)
        (only_from : option (list string)) (fs : node) (extensions : list string)
        (files : list path) :
  collect_project_files root ignore_dirs ignore_files only_from fs extensions = Some files ->
  exists raw,
    collect_walk root ignore_dirs ignore_files only_from extensions (os_walk fs root) = Some raw
    /\ Permutation files raw
    /\ StronglySorted path_le files
    /\ (forall raw', Permutation raw raw' -> sort_by path_lt raw' = files).
Proof.
  unfold collect_project_files; intros H.
  destruct (collect_walk _ _ _ _ _ _) as [raw|] eqn:E; [|discriminate].
  injection H as <-.
  assert (Hs : forall l, StronglySorted path_le (sort_by path_lt l))
    by (intros l; exact (sort_by_sorted path_lt path_lt_asym path_lt_false_trans l)).
  exists raw; split; [reflexivity|]; split; [apply sort_by_perm|]; split; [apply Hs|].
  intros raw' Hp; apply StronglySorted_perm_unique; [apply Hs | apply Hs|].
  rewrite !sort_by_perm; symmetry; exact Hp.
Qed.

(** C5 on [example_prefix_fs]. *)
Lemma C5_witness :
  collect_project_files ["r"] (ignore_dirs_of ["r"] []) (ignore_files_of ["r"] "prompt.txt") None
    example_prefix_fs [".py"] = Some [["r"; "a"; "x.py"]; ["r"; "a.py"]]
  /\ exists raw,
    collect_walk ["r"] (ignore_dirs_of ["r"] []) (ignore_files_of ["r"] "prompt.txt") None [".py"]
      (os_walk example_prefix_fs ["r"]) = Some raw
    /\ Permutation [["r"; "a"; "x.py"]; ["r"; "a.py"]] raw
    /\ StronglySorted path_le [["r"; "a"; "x.py"]; ["r"; "a.py"]]
    /\ (forall raw', Permutation raw raw' -> sort_by path_lt raw' = [["r"; "a"; "x.py"]; ["r"; "a.py"]]).
Proof.
  assert (H : collect_project_files ["r"] (ignore_dirs_of ["r"] []) (ignore_files_of ["r"] "prompt.txt")
                None example_prefix_fs [".py"] = Some [["r"; "a"; "x.py"]; ["r"; "a.py"]])
    by (vm_compute; reflexivity).
  split; [exact H|].
  exact (C5_sorted_by_components _ _ _ _ _ _ _ H).
Defined.

(** ** Unreadable files in the prompt builders *)

Lemma full_context_blocks_readable (root : path) (fsread : path -> file_state) (files : list path) :
  Forall (fun f => exists rel, relative_to f root = Some rel) files ->
  exists bl, full_context_blocks root fsread files = Some bl
             /\ full_context_blocks root fsread (filter (fun f => file_readable (fsread f)) files) = Some bl.
Proof.
  induction files as [|f files IH]; intros H; [exists []; split; reflexivity|].
  inversion H as [|? ? [rel Hrel] Hs]; subst.
  destruct (IH Hs) as [bl [H1 H2]].
  simpl; destruct (fsread f) as [c| | | |] eqn:Ef; simpl.
  all: rewrite ?Ef, ?Hrel, ?H1, ?H2; simpl; rewrite ?Ef, ?Hrel, ?H1, ?H2; simpl.
  all: eexists; split; reflexivity.
Qed.

Lemma files_blocks_raise (root : path) (fsread : path -> file_state) (files : list path) (f : path) :
  In f files -> fsread f = NoPermission \/ fsread f = Directory ->
  files_blocks root fsread files = None.
Proof.
  induction files as [|g files IH]; intros Hin Hf; [destruct Hin|]; simpl.
  destruct (relative_to g root) as [rel|]; [simpl|reflexivity].
  destruct Hin as [<-|Hin].
  - destruct Hf as [Hf|Hf]; rewrite Hf; reflexivity.
  - rewrite (IH Hin Hf).
    destruct (read_text (fsread g)) as [c|[]]; reflexivity.
Qed.

(** C7 (code_bug): for files below [root], [make_full_context_prompt]
    never raises on an unreadable file but silently omits it (the prompt
    equals the one built from the readable files alone, no placeholder);
    [make_files_prompt] writes the placeholder "Error: Could not read this
    file." for a missing or undecodable file, but, catching only those two
    errors, raises when a file has no read permission or is a directory. *)
Theorem C7_unreadable_files (root : path) (fsread : path -> file_state)
        (full_t0 full_t1 full_t2 full_t3 task tree : string) (files : list path) :
  Forall (fun f => exists rel, relative_to f root = Some rel) files ->
  (exists prompt,
     make_full_context_prompt root fsread full_t0 full_t1 full_t2 full_t3 task tree files = Some prompt
     /\ make_full_context_prompt root fsread full_t0 full_t1 full_t2 full_t3 task tree
          (filter (fun f => file_readable (fsread f)) files) = Some prompt)
  /\ ((forall f, In f files -> fsread f <> NoPermission /\ fsread f <> Directory) ->
      exists blocks,
        make_files_prompt root fsread files = Some (String.concat (nl +++ nl) blocks)
        /\ Forall2 (fun f b => exists rel, relative_to f root = Some rel
                      /\ b = match fsread f with
                             | Readable c => files_header rel +++ py_strip c +++ nl +++ fence
                             | _ => files_header rel +++ "Error: Could not read this file." +++ nl +++ fence
                             end) files blocks)
  /\ (forall f, In f files -> fsread f = NoPermission \/ fsread f = Directory ->
      make_files_prompt root fsread files = None).
Proof.
  intros Hrel; split; [|split].
  - destruct (full_context_blocks_readable root fsread files Hrel) as [bl [H1 H2]].
    unfold make_full_context_prompt, full_context_contents; rewrite H1, H2.
    eexists; split; reflexivity.
  - intros Hok.
    assert (G : exists blocks, files_blocks root fsread files = Some blocks
              /\ Forall2 (fun f b => exists rel, relative_to f root = Some rel
                     /\ b = match fsread f with
                            | Readable c => files_header rel +++ py_strip c +++ nl +++ fence
                            | _ => files_header rel +++ "Error: Could not read this file." +++ nl +++ fence
                            end) files blocks).
    { clear - Hrel Hok.
      induction files as [|f files IH]; [exists []; split; [reflexivity | constructor]|].
      inversion Hrel as [|? ? [rel Hr] Hs]; subst.
      destruct (IH Hs (fun g Hg => Hok g (or_intror Hg))) as [bl [H1 H2]].
      destruct (Hok f (or_introl eq_refl)) as [Hp Hd].
      simpl; rewrite Hr; simpl.
      destruct (fsread f) as [c| | | |] eqn:Ef; try contradiction; simpl; rewrite H1;
        (eexists; split; [reflexivity | constructor; [exists rel; split; [exact Hr | rewrite Ef; reflexivity] | exact H2]]). }
    destruct G as [bl [H1 H2]]; exists bl; split; [unfold make_files_prompt; rewrite H1; reflexivity | exact H2].
  - intros f Hin Hf; unfold make_files_prompt; rewrite (files_blocks_raise root fsread files f Hin Hf); reflexivity.
Qed.

(** C7 (failing input): an unreadable [bad.py] and a disappeared
    [gone.py] leave no trace in the full-context contents, and the
    unreadable [bad.py] makes [make_files_prompt] raise. *)
Lemma C7_counterexample :
  full_context_contents ["r"] read_bad [["r"; "bad.py"]; ["r"; "gone.py"]; ["r"; "ok.py"]]
  = full_context_contents ["r"] read_bad [["r"; "ok.py"]]
  /\ full_context_contents ["r"] read_bad [["r"; "ok.py"]]
     = Some ("#### File: " +++ bt +++ "ok.py" +++ bt +++ nl +++ fence +++ nl +++ "x" +++ nl +++ fence)
  /\ make_files_prompt ["r"] read_bad [["r"; "bad.py"]; ["r"; "ok.py"]] = None.
Proof.
  refine (conj _ (conj _ _)); vm_compute; reflexivity.
Qed.

(** C7 on three files: readable, disappeared and unreadable. *)
Lemma C7_witness :
  (exists prompt,
     make_full_context_prompt ["r"] read_bad "T0" "T1" "T2" "T3" "task" "." 
       [["r"; "ok.py"]; ["r"; "gone.py"]; ["r"; "bad.py"]] = Some prompt)
  /\ (exists blocks,
       make_files_prompt ["r"] read_bad [["r"; "ok.py"]; ["r"; "gone.py"]]
       = Some (String.concat (nl +++ nl) blocks))
  /\ make_files_prompt ["r"] read_bad [["r"; "ok.py"]; ["r"; "gone.py"]; ["r"; "bad.py"]] = None.
Proof.
  assert (R3 : Forall (fun f => exists rel, relative_to f ["r"] = Some rel)
                 [["r"; "ok.py"]; ["r"; "gone.py"]; ["r"; "bad.py"]])
    by (repeat constructor; eexists; reflexivity).
  assert (R2 : Forall (fun f => exists rel, relative_to f ["r"] = Some rel)
                 [["r"; "ok.py"]; ["r"; "gone.py"]])
    by (repeat constructor; eexists; reflexivity).
  destruct (C7_unreadable_files ["r"] read_bad "T0" "T1" "T2" "T3" "task" "." _ R3)
    as [[prompt [Hp _]] [_ Hraise]].
  destruct (C7_unreadable_files ["r"] read_bad "T0" "T1" "T2" "T3" "task" "." _ R2)
    as [_ [Hfiles _]].
  refine (conj (ex_intro _ prompt Hp) (conj _ _)).
  - destruct Hfiles as [blocks [Hb _]];
      [intros f [<-|[<-|[]]]; vm_compute; split; discriminate|].
    exists blocks; exact Hb.
  - apply (Hraise ["r"; "bad.py"]); [right; right; left; reflexivity | left; vm_compute; reflexivity].
Defined.

(** ** Paths collected by [collect_project_files] *)

Lemma collect_in_dir_In (root : path) (ignore_dirs ignore_files : list path)
      (d_path : path) (extensions filenames : list string) (raw : list path) (p : path) :
  collect_in_dir root ignore_dirs ignore_files d_path extensions filenames = Some raw -> In p raw ->
  exists fname, In fname filenames /\ p = d_path ++ [fname]
                /\ existsb (endswith fname) extensions = true
                /\ _is_ignored p root ignore_dirs ignore_files = Some false.
Proof.
  revert raw; induction filenames as [|fname rest IH]; intros raw H Hp; simpl in H.
  - injection H as <-; destruct Hp.
  - destruct (existsb (endswith fname) extensions) eqn:Ex.
    + destruct (_is_ignored (d_path ++ [fname]) root ignore_dirs ignore_files) as [ig|] eqn:Ei;
        [|discriminate]; simpl in H.
      destruct (collect_in_dir root ignore_dirs ignore_files d_path extensions rest) as [more|] eqn:Em;
        [|discriminate].
      injection H as <-.
      apply in_app_or in Hp as [Hp|Hp].
      * destruct ig; [destruct Hp|]; destruct Hp as [<-|[]].
        exists fname; split; [left; reflexivity|]; split; [reflexivity|]; split; assumption.
      * destruct (IH more eq_refl Hp) as [f [Hf R]]; exists f; split; [right; exact Hf | exact R].
    + simpl in H.
      destruct (collect_in_dir root ignore_dirs ignore_files d_path extensions rest) as [more|] eqn:Em;
        [|discriminate].
      injection H as <-; simpl in Hp.
      destruct (IH more eq_refl Hp) as [f [Hf R]]; exists f; split; [right; exact Hf | exact R].
Qed.

Lemma collect_walk_In (root : path) (ignore_dirs ignore_files : list path)
      (only_from : option (list string)) (extensions : list string)
      (walked : list (path * list string * list string)) (raw : list path) (p : path) :
  collect_walk root ignore_dirs ignore_files only_from extensions walked = Some raw -> In p raw ->
  exists d_path dirnames filenames here,
    In (d_path, dirnames, filenames) walked
    /\ skip_dir root ignore_dirs ignore_files only_from d_path = Some false
    /\ collect_in_dir root ignore_dirs ignore_files d_path extensions filenames = Some here
    /\ In p here.
Proof.
  revert raw; induction walked as [|[[d dn] fns] walked IH]; intros raw H Hp; simpl in H.
  - injection H as <-; destruct Hp.
  - destruct (skip_dir root ignore_dirs ignore_files only_from d) as [skip|] eqn:Es; [|discriminate].
    simpl in H.
    destruct (if skip then Some [] else collect_in_dir root ignore_dirs ignore_files d extensions fns)
      as [here|] eqn:Eh; [|discriminate].
    destruct (collect_walk root ignore_dirs ignore_files only_from extensions walked) as [more|] eqn:Em;
      [|discriminate].
    injection H as <-.
    apply in_app_or in Hp as [Hp|Hp].
    + destruct skip; [injection Eh as <-; destruct Hp|].
      exists d, dn, fns, here; split; [left; reflexivity|]; split; [exact Es|]; split; assumption.
    + destruct (IH more eq_refl Hp) as [d' [dn' [fns' [h' [Hin R]]]]].
      exists d', dn', fns', h'; split; [right; exact Hin | exact R].
Qed.

Lemma skip_dir_false (root : path) (ignore_dirs ignore_files : list path)
      (only_from : option (list string)) (d : path) :
  skip_dir root ignore_dirs ignore_files only_from d = Some false ->
  exists rel, d = root ++ rel /\ is_ignored_rel rel ignore_dirs ignore_files = false
              /\ _in_scope_dir d root only_from = Some true.
Proof.
  unfold skip_dir, _is_ignored.
  destruct (relative_to d root) as [rel|] eqn:Er; simpl; [|discriminate].
  destruct (is_ignored_rel rel ignore_dirs ignore_files) eqn:Ei; [discriminate|].
  destruct (_in_scope_dir d root only_from) as [[|]|]; simpl; try discriminate.
  intros _; exists rel; split; [exact (strip_prefix_Some _ _ _ Er)|]; split; [exact Ei | reflexivity].
Qed.

(** X1: a collected path is [root / rel / fname] where [fname] ends with
    one of the extensions, neither the file nor its directory is ignored,
    and the directory is in scope. *)
Theorem collect_project_files_shape (root : path) (ignore_dirs ignore_files : list path)
        (only_from : option (list string)) (fs : node) (extensions : list string)
        (files : list path) (p : path) :
  collect_project_files root ignore_dirs ignore_files only_from fs extensions = Some files ->
  In p files ->
  exists rel fname,
    p = root ++ rel ++ [fname]
    /\ existsb (endswith fname) extensions = true
    /\ is_ignored_rel (rel ++ [fname]) ignore_dirs ignore_files = false
    /\ is_ignored_rel rel ignore_dirs ignore_files = false
    /\ _in_scope_dir (root ++ rel) root only_from = Some true.
Proof.
  unfold collect_project_files; intros H Hp.
  destruct (collect_walk _ _ _ _ _ _) as [raw|] eqn:E; [|discriminate].
  injection H as <-.
  apply (Permutation_in _ (sort_by_perm _ _)) in Hp.
  destruct (collect_walk_In _ _ _ _ _ _ _ _ E Hp) as [d [dn [fns [here [_ [Hs [Hc Hh]]]]]]].
  destruct (collect_in_dir_In _ _ _ _ _ _ _ _ Hc Hh) as [fname [_ [-> [Hx Hi]]]].
  destruct (skip_dir_false _ _ _ _ _ Hs) as [rel [-> [Hr Hsc]]].
  exists rel, fname; split; [rewrite app_assoc; reflexivity|]; split; [exact Hx|].
  split; [|split; assumption].
  rewrite <- app_assoc, is_ignored_app in Hi; injection Hi as Hi; exact Hi.
Qed.

(** ** Patterns loaded from [.gitignore] *)

Lemma str_app_assoc (a b c : string) : (a +++ b) +++ c = a +++ (b +++ c).
Proof. induction a as [|x a IH]; simpl; [reflexivity | rewrite IH; reflexivity]. Qed.

Lemma str_app_nil_r (a : string) : a +++ "" = a.
Proof. induction a as [|x a IH]; simpl; [reflexivity | rewrite IH; reflexivity]. Qed.

Lemma rev_str_app (a b : string) : rev_str (a +++ b) = rev_str b +++ rev_str a.
Proof.
  induction a as [|x a IH]; simpl; [rewrite str_app_nil_r; reflexivity|].
  rewrite IH, str_app_assoc; reflexivity.
Qed.

Lemma rev_str_involutive (s : string) : rev_str (rev_str s) = s.
Proof.
  induction s as [|x s IH]; simpl; [reflexivity|].
  rewrite rev_str_app, IH; reflexivity.
Qed.

Lemma list_ascii_app (a b : string) :
  list_ascii_of_string (a +++ b) = list_ascii_of_string a ++ list_ascii_of_string b.
Proof. induction a as [|x a IH]; simpl; [reflexivity | rewrite IH; reflexivity]. Qed.

Lemma list_ascii_rev_str (s : string) :
  list_ascii_of_string (rev_str s) = rev (list_ascii_of_string s).
Proof. induction s as [|x s IH]; simpl; [reflexivity | rewrite list_ascii_app, IH; reflexivity]. Qed.

Lemma lstrip_char_spec (d : ascii) (t : string) :
  exists k, t = k +++ lstrip_char d t
            /\ forallb (Ascii.eqb d) (list_ascii_of_string k) = true
            /\ match lstrip_char d t with String c _ => c <> d | EmptyString => True end.
Proof.
  induction t as [|c t IH]; simpl.
  - exists ""; split; [reflexivity | split; [reflexivity | exact I]].
  - destruct (Ascii.eqb c d) eqn:E.
    + destruct IH as [k [Hk [Ha Hh]]].
      apply Ascii.eqb_eq in E; subst c.
      exists (String d k); split; [simpl; rewrite <- Hk; reflexivity|]; split; [|exact Hh].
      simpl; rewrite Ascii.eqb_refl; exact Ha.
    + exists ""; split; [reflexivity|]; split; [reflexivity|].
      intros ->; rewrite Ascii.eqb_refl in E; discriminate.
Qed.

Lemma rstrip_char_spec (d : ascii) (s : string) :
  exists k, s = rstrip_char d s +++ k
            /\ forallb (Ascii.eqb d) (list_ascii_of_string k) = true
            /\ (forall q, rstrip_char d s <> q +++ String d "").
Proof.
  destruct (lstrip_char_spec d (rev_str s)) as [k [Hk [Ha Hh]]].
  unfold rstrip_char.
  set (u := lstrip_char d (rev_str s)) in *.
  exists (rev_str k); split; [|split].
  - rewrite <- (rev_str_involutive s), Hk, rev_str_app; reflexivity.
  - rewrite list_ascii_rev_str, forallb_forall; intros c Hc.
    apply in_rev in Hc; exact (proj1 (forallb_forall _ _) Ha c Hc).
  - intros q Hq.
    assert (Hu : u = String d (rev_str q)).
    { rewrite <- (rev_str_involutive u), Hq, rev_str_app; reflexivity. }
    rewrite Hu in Hh; apply Hh; reflexivity.
Qed.

Lemma prefix_app (pre a b : string) : String.prefix pre a = true -> String.prefix pre (a +++ b) = true.
Proof.
  revert a; induction pre as [|c pre IH]; intros a H.
  - destruct (a +++ b); reflexivity.
  - destruct a as [|x a]; [simpl in H; discriminate|]; simpl in *.
    destruct (ascii_dec c x); [apply IH, H | discriminate].
Qed.

Lemma fold_left_app_ext {A B : Type} (F : list B -> A -> list B) (g : A -> list B) (l : list A) (acc : list B) :
  (forall acc a, F acc a = acc ++ g a) ->
  fold_left F l acc = acc ++ flat_map g l.
Proof.
  intros HF; revert acc; induction l as [|a l IH]; intros acc; simpl; [rewrite app_nil_r; reflexivity|].
  rewrite IH, HF, app_assoc; reflexivity.
Qed.

Lemma load_gitignore_patterns_flat (text : string) :
  load_gitignore_patterns (Some text)
  = flat_map (fun raw => if negb (String.eqb (py_strip raw) "") && negb (startswith (py_strip raw) "#")
                         then [rstrip_char slash (py_strip raw)] else [])
             (split_by is_newline text).
Proof.
  unfold load_gitignore_patterns; rewrite fold_left_app_ext with (g := fun raw =>
    if negb (String.eqb (py_strip raw) "") && negb (startswith (py_strip raw) "#")
    then [rstrip_char slash (py_strip raw)] else []); [reflexivity|].
  intros acc a; cbv zeta; destruct (_ && _); [reflexivity | rewrite app_nil_r; reflexivity].
Qed.

(** X6: a loaded pattern is a stripped, non-comment line of the file with
    its trailing slashes removed; it never starts with "#" and never ends
    with "/". *)
Theorem gitignore_pattern_shape (gitignore : option string) (p : string) :
  In p (load_gitignore_patterns gitignore) ->
  exists text raw k,
    gitignore = Some text
    /\ In raw (split_by is_newline text)
    /\ py_strip raw = p +++ k
    /\ forallb (Ascii.eqb slash) (list_ascii_of_string k) = true
    /\ startswith p "#" = false
    /\ (forall q, p <> q +++ "/").
Proof.
  destruct gitignore as [text|]; [|intros []].
  rewrite load_gitignore_patterns_flat; intros H.
  apply in_flat_map in H as [raw [Hraw Hp]].
  destruct (negb (String.eqb (py_strip raw) "") && negb (startswith (py_strip raw) "#")) eqn:Ec;
    [|destruct Hp].
  destruct Hp as [<-|[]].
  apply andb_true_iff in Ec as [_ Hc]; apply negb_true_iff in Hc.
  destruct (rstrip_char_spec slash (py_strip raw)) as [k [Hk [Ha Hn]]].
  exists text, raw, k; split; [reflexivity|]; split; [exact Hraw|]; split; [exact Hk|].
  split; [exact Ha|]; split; [|exact Hn].
  destruct (startswith (rstrip_char slash (py_strip raw)) "#") eqn:Es; [|reflexivity].
  rewrite <- Hc, Hk; unfold startswith in *; rewrite (prefix_app _ _ _ Es); reflexivity.
Qed.

Lemma lstrip_char_all (d : ascii) (t : string) :
  forallb (Ascii.eqb d) (list_ascii_of_string t) = true -> lstrip_char d t = "".
Proof.
  induction t as [|c t IH]; simpl; [reflexivity|].
  intros H; apply andb_true_iff in H as [Hc Ht].
  rewrite Ascii.eqb_sym, Hc; exact (IH Ht).
Qed.

(** X8: a [.gitignore] line made only of slashes loads as the empty pattern;
    [root / ""] is [root] itself, so every entry having a path component
    equal to the root directory's own name is then an ignored directory. *)
Theorem gitignore_slash_line (root : path) (text raw : string) :
  In raw (split_by is_newline text) ->
  py_strip raw <> "" ->
  forallb (Ascii.eqb slash) (list_ascii_of_string (py_strip raw)) = true ->
  In "" (load_gitignore_patterns (Some text))
  /\ forall rel, In (path_name root) rel ->
     is_dir_ignored rel (ignore_dirs_of root (load_gitignore_patterns (Some text))) = true.
Proof.
  intros Hraw Hne Hall.
  assert (Hin : In "" (load_gitignore_patterns (Some text))).
  { rewrite load_gitignore_patterns_flat; apply in_flat_map; exists raw; split; [exact Hraw|].
    destruct (py_strip raw) as [|c t] eqn:Es; [contradiction|].
    cbn [list_ascii_of_string forallb] in Hall; apply andb_true_iff in Hall as [Hc Ht].
    apply Ascii.eqb_eq in Hc; subst c.
    assert (Hs : startswith (String slash t) "#" = false) by reflexivity.
    rewrite Hs; simpl.
    unfold rstrip_char; rewrite lstrip_char_all; [left; reflexivity|].
    rewrite list_ascii_rev_str, forallb_forall; intros c Hc; apply in_rev in Hc.
    simpl in Hc; destruct Hc as [<-|Hc]; [apply Ascii.eqb_refl|].
    exact (proj1 (forallb_forall _ _) Ht c Hc). }
  split; [exact Hin|].
  intros rel Hr; apply (is_dir_ignored_In _ _ (path_name root) Hr).
  unfold ignore_dirs_of; rewrite map_map; apply in_map_iff.
  exists ""; split; [|apply in_or_app; right; exact Hin].
  unfold path_join, path_name; simpl; rewrite app_nil_r; reflexivity.
Qed.

(** ** Git errors *)

(** X9: [make_git_prompt]: a missing [git] exits (whichever command meets
    it); a failing command counts as an empty diff; with [--staged] the
    unstaged diff is never asked for. *)
Theorem make_git_prompt_errors (git : list string -> git_outcome) (git_instructions : string) :
  (git (diff_cmd ++ ["--cached"]) = GitMissing ->
   forall staged_only, make_git_prompt git git_instructions staged_only = None)
  /\ (git diff_cmd = GitMissing -> make_git_prompt git git_instructions false = None)
  /\ (forall err out, git (diff_cmd ++ ["--cached"]) = GitFailed err -> git diff_cmd = GitOutput out ->
      make_git_prompt git git_instructions false
      = make_git_prompt (fun _ => GitOutput out) git_instructions true)
  /\ (forall err, git (diff_cmd ++ ["--cached"]) = GitFailed err ->
      make_git_prompt git git_instructions true = Some "No Git changes detected.")
  /\ (forall git', git' (diff_cmd ++ ["--cached"]) = git (diff_cmd ++ ["--cached"]) ->
      make_git_prompt git' git_instructions true = make_git_prompt git git_instructions true).
Proof.
  unfold make_git_prompt, git_diff, _run_git.
  split; [|split; [|split; [|split]]].
  - intros H b; rewrite H; reflexivity.
  - intros H; destruct (git (diff_cmd ++ ["--cached"])); try rewrite H; reflexivity.
  - intros err out H1 H2; rewrite H1, H2; reflexivity.
  - intros err H; rewrite H; reflexivity.
  - intros git' H; rewrite H; reflexivity.
Qed.

(** ** Paths outside the root *)

(** X10: a requested path that is not below [root] makes [make_files_prompt]
    raise (the ValueError of [relative_to]), whether or not it is readable;
    [make_full_context_prompt] raises on it too unless it is a directory. *)
Theorem prompts_outside_root (root : path) (fsread : path -> file_state)
        (full_t0 full_t1 full_t2 full_t3 task tree : string) (files : list path) (f : path) :
  In f files -> relative_to f root = None ->
  make_files_prompt root fsread files = None
  /\ (path_is_dir (fsread f) = false ->
      make_full_context_prompt root fsread full_t0 full_t1 full_t2 full_t3 task tree files = None).
Proof.
  intros Hin Hr; split.
  - unfold make_files_prompt.
    assert (G : files_blocks root fsread files = None).
    { induction files as [|g files IH]; [destruct Hin|]; simpl.
      destruct Hin as [<-|Hin]; [rewrite Hr; reflexivity|].
      destruct (relative_to g root); [simpl|reflexivity].
      rewrite (IH Hin); destruct (read_text (fsread g)) as [c|[]]; reflexivity. }
    rewrite G; reflexivity.
  - intros Hd; unfold make_full_context_prompt, full_context_contents.
    assert (G : full_context_blocks root fsread files = None).
    { induction files as [|g files IH]; [destruct Hin|]; simpl.
      destruct Hin as [<-|Hin]; [rewrite Hd, Hr; reflexivity|].
      destruct (path_is_dir (fsread g)); [exact (IH Hin)|].
      destruct (relative_to g root); [simpl|reflexivity].
      rewrite (IH Hin); destruct (read_text (fsread g)) as [c|[]]; reflexivity. }
    rewrite G; reflexivity.
Qed.

(** X11: the old full-context builder renders readable files exactly as
    [make_files_prompt] does, skips undecodable ones, and raises on a file
    that is missing, unreadable or a directory. *)
Theorem make_full_context_prompt_old_files (root : path) (fsread : path -> file_state)
        (old_t1 old_t2 task tree : string) (files : list path) :
  ((forall f, In f files -> file_readable (fsread f) = true) ->
   forall blocks, files_blocks root fsread files = Some blocks ->
   old_blocks root fsread files = Some blocks)
  /\ (Forall (fun f => exists rel, relative_to f root = Some rel) files ->
      old_blocks root fsread files
      = old_blocks root fsread (filter (fun f => negb (file_undecodable (fsread f))) files))
  /\ (forall f, In f files -> fsread f = Missing \/ fsread f = NoPermission \/ fsread f = Directory ->
      make_full_context_prompt_old root fsread old_t1 old_t2 task tree files = None).
Proof.
  split; [|split].
  - intros Hr; induction files as [|f files IH]; intros blocks H; [exact H|].
    simpl in H |- *.
    destruct (relative_to f root) as [rel|]; [simpl in H |- *|discriminate].
    specialize (Hr f (or_introl eq_refl)) as Hf.
    destruct (fsread f) as [c| | | |]; try discriminate; simpl in H |- *.
    destruct (files_blocks root fsread files) as [more|]; [|discriminate].
    injection H as <-.
    rewrite (IH (fun g Hg => Hr g (or_intror Hg)) more eq_refl).
    rewrite !str_app_assoc; reflexivity.
  - induction files as [|f files IH]; intros H; [reflexivity|].
    inversion H as [|? ? [rel Hrel] Hs]; subst.
    simpl; rewrite Hrel; simpl.
    destruct (fsread f) as [c| | | |] eqn:Ef; simpl; rewrite ?Hrel, ?Ef, <- (IH Hs); simpl;
      try reflexivity.
    destruct (old_blocks root fsread files); reflexivity.
  - intros f Hin Hf; unfold make_full_context_prompt_old.
    assert (G : old_blocks root fsread files = None).
    { induction files as [|g files IH]; [destruct Hin|]; simpl.
      destruct (relative_to g root); [simpl|reflexivity].
      destruct Hin as [<-|Hin].
      - destruct Hf as [Hf|[Hf|Hf]]; rewrite Hf; reflexivity.
      - rewrite (IH Hin); destruct (read_text (fsread g)) as [c|[]]; reflexivity. }
    rewrite G; reflexivity.
Qed.

Section ChildView.
Context {X : Type} (g : path -> event -> list X)
        (g_listed : forall D p, g D (Listed p) = [])
        (g_line : forall D p b t, g D (Line p b t) <> [] -> exists nm, p = D ++ [nm]).

Lemma child_view_under_nil (d : path) (nm : string) (sub : list event) :
  Forall (under (d ++ [nm])) sub -> flat_map (g d) sub = [].
Proof.
  induction sub as [|e sub IH]; intros H; [reflexivity|].
  inversion H as [|? ? He Hs]; subst; simpl; rewrite (IH Hs), app_nil_r.
  destruct e as [p|p b t]; [apply g_listed|].
  destruct (g d (Line p b t)) as [|y ys] eqn:E; [reflexivity|].
  destruct (g_line d p b t) as [x Hx]; [rewrite E; discriminate|].
  destruct He as [r [Hr Hp]]; rewrite Hp, <- app_assoc in Hx.
  apply app_inv_head in Hx; destruct r; [contradiction | discriminate].
Qed.

Lemma child_view_under_ext (q D : path) (sub : list event) :
  Forall (under q) sub -> flat_map (g D) sub <> [] -> exists r, D = q ++ r.
Proof.
  induction sub as [|e sub IH]; intros H Hne; [contradiction|].
  inversion H as [|? ? He Hs]; subst; simpl in Hne.
  destruct (g D e) as [|y ys] eqn:E; [exact (IH Hs Hne)|].
  destruct e as [p|p b t]; [rewrite g_listed in E; discriminate|].
  destruct (g_line D p b t) as [x Hx]; [rewrite E; discriminate|].
  destruct He as [r [Hr Hp]]; rewrite Hp in Hx.
  destruct (exists_last Hr) as [r' [z ->]].
  rewrite app_assoc in Hx; apply app_inj_tail in Hx as [Hx _].
  exists r'; symmetry; exact Hx.
Qed.

Lemma child_view_other (d D : path) (nm : string) (b : bool) (t : string) :
  D <> d -> g D (Line (d ++ [nm]) b t) = [].
Proof.
  intros Hne; destruct (g D (Line (d ++ [nm]) b t)) as [|y ys] eqn:E; [reflexivity|].
  destruct (g_line D (d ++ [nm]) b t) as [x Hx]; [rewrite E; discriminate|].
  apply app_inj_tail in Hx as [Hx _]; congruence.
Qed.

Lemma nth_error_name_inj (es : list entry) (j k : nat) (e e' : entry) :
  NoDup (map ename es) -> nth_error es j = Some e -> nth_error es k = Some e' ->
  ename e = ename e' -> j = k.
Proof.
  intros Hn Hj Hk He.
  apply (proj1 (NoDup_nth_error _) Hn).
  - rewrite length_map; apply nth_error_Some; congruence.
  - rewrite !nth_error_map, Hj, Hk; simpl; rewrite He; reflexivity.
Qed.

Section Emit.
Context (d : path) (pre : string) (count : nat).

Lemma emit_entries_view (es : list entry) :
  forall i evs,
  emit_entries d pre count i es = Some evs ->
  NoDup (map ename es) ->
  (forall e s sub, In e es -> is_dir (enode e) = true -> ewalk e (d ++ [ename e]) s = Some sub ->
     Forall (under (d ++ [ename e])) sub) ->
  Forall (under d) evs
  /\ forall D, D <> d -> flat_map (g D) evs <> [] ->
     exists k e sub,
       nth_error es k = Some e /\ is_dir (enode e) = true
       /\ ewalk e (d ++ [ename e]) (pre +++ (if Nat.eqb (i + k) (count - 1)
                                         then extension_last else extension_mid)) = Some sub
       /\ (exists r, D = (d ++ [ename e]) ++ r)
       /\ flat_map (g D) evs = flat_map (g D) sub.
Proof.
  induction es as [|e es IH]; intros i evs H Hn HS; simpl in H.
  - injection H as <-; split; [constructor|]; intros D _ Hne; contradiction.
  - destruct (if is_dir (enode e) then _ else Some []) as [sub|] eqn:Es; [|discriminate].
    destruct (emit_entries d pre count (S i) es) as [rest|] eqn:Er; [|discriminate].
    injection H as <-.
    simpl in Hn; apply NoDup_cons_iff in Hn as [Hnin Hn].
    assert (Hsub : Forall (under (d ++ [ename e])) sub).
    { destruct (is_dir (enode e)) eqn:Ed; [exact (HS e _ sub (or_introl eq_refl) Ed Es)|].
      injection Es as <-; constructor. }
    destruct (IH (S i) rest Er Hn (fun e' s sub' Hin => HS e' s sub' (or_intror Hin))) as [Hu Hv].
    split.
    + constructor; [exists [ename e]; split; [discriminate | reflexivity]|].
      apply Forall_app; split; [|exact Hu].
      eapply Forall_impl; [|exact Hsub]; intros a; apply under_app.
    + intros D Hne Hk; simpl in Hk |- *; rewrite child_view_other in Hk |- * by exact Hne.
      simpl in Hk |- *; rewrite flat_map_app in Hk |- *.
      destruct (flat_map (g D) sub) as [|y ys] eqn:Ek.
      * destruct (Hv D Hne Hk) as [k [e' [sub' [Hnth R]]]].
        exists (S k), e', sub'; split; [exact Hnth|].
        replace (i + S k) with (S i + k) by lia; exact R.
      * destruct (child_view_under_ext _ D _ Hsub) as [r Hr]; [rewrite Ek; discriminate|].
        destruct (flat_map (g D) rest) eqn:Ekr.
        -- destruct (is_dir (enode e)) eqn:Ed; [|injection Es as <-; discriminate].
           exists 0, e, sub; split; [reflexivity|]; split; [exact Ed|].
           split; [rewrite Nat.add_0_r; exact Es|]; split; [exists r; exact Hr|].
           rewrite app_nil_r; symmetry; exact Ek.
        -- exfalso.
           destruct (Hv D Hne) as [k [e' [sub' [Hnth [_ [_ [[r' Hr'] _]]]]]]];
             [rewrite Ekr; discriminate|].
           rewrite Hr in Hr'; apply prefix_name_eq in Hr'.
           apply Hnin; rewrite Hr'; apply in_map; exact (nth_error_In _ _ Hnth).
Qed.

End Emit.
End ChildView.

Lemma child_line_listed (D p : path) : child_line D (Listed p) = [].
Proof. reflexivity. Qed.

Lemma child_line_line (D p : path) (b : bool) (t : string) :
  child_line D (Line p b t) <> [] -> exists nm, p = D ++ [nm].
Proof.
  unfold child_line; destruct (strip_prefix D p) as [[|x [|y l]]|] eqn:E; try (intros H; contradiction H; reflexivity).
  intros _; exists x; exact (strip_prefix_Some _ _ _ E).
Qed.

Lemma expected_lines_length (pre : string) (count i : nat) (es : list entry) :
  length (expected_lines pre count i es) = length es.
Proof. revert i; induction es as [|e es IH]; intros i; simpl; [reflexivity | rewrite IH; reflexivity]. Qed.

Lemma expected_lines_nth (pre : string) (count : nat) (es : list entry) :
  forall i k nm t, nth_error (expected_lines pre count i es) k = Some (nm, t) ->
  exists e, nth_error es k = Some e /\ nm = ename e
            /\ t = pre +++ (if Nat.eqb (i + k) (count - 1) then connector_last else connector_mid) +++ nm.
Proof.
  induction es as [|e es IH]; intros i k nm t H; [destruct k; discriminate|].
  destruct k as [|k]; simpl in H.
  - injection H as <- <-; exists e; split; [reflexivity|]; split; [reflexivity|].
    rewrite Nat.add_0_r; reflexivity.
  - destruct (IH (S i) k nm t H) as [e' R]; exists e'.
    replace (i + S k) with (S i + k) by lia; exact R.
Qed.

Lemma emit_entries_direct (d : path) (pre : string) (count : nat) (es : list entry) :
  forall i evs,
  emit_entries d pre count i es = Some evs ->
  (forall e s sub, In e es -> is_dir (enode e) = true -> ewalk e (d ++ [ename e]) s = Some sub ->
     Forall (under (d ++ [ename e])) sub) ->
  children_lines d evs = expected_lines pre count i es.
Proof.
  induction es as [|e es IH]; intros i evs H HS; simpl in H.
  - injection H as <-; reflexivity.
  - destruct (if is_dir (enode e) then _ else Some []) as [sub|] eqn:Es; [|discriminate].
    destruct (emit_entries d pre count (S i) es) as [rest|] eqn:Er; [|discriminate].
    injection H as <-.
    assert (Hsub : Forall (under (d ++ [ename e])) sub).
    { destruct (is_dir (enode e)) eqn:Ed; [exact (HS e _ sub (or_introl eq_refl) Ed Es)|].
      injection Es as <-; constructor. }
    unfold children_lines; cbn [flat_map]; rewrite flat_map_app.
    rewrite (child_view_under_nil child_line child_line_listed child_line_line d (ename e) sub Hsub).
    unfold child_line at 1; rewrite strip_prefix_app.
    cbn [expected_lines app]; f_equal.
    exact (IH (S i) rest Er (fun e' s sub' Hin => HS e' s sub' (or_intror Hin))).
Qed.

Lemma siblings_rendered_nil (prefix : string) : siblings_rendered [] prefix.
Proof. intros k nm t H; destruct k; discriminate. Qed.

Lemma walk_rendered (root : path) (ignore_dirs ignore_files : list path)
      (only_from : option (list string)) (n : node) :
  names_unique n = true -> forall d pre evs,
  walk root ignore_dirs ignore_files only_from n d pre = Some evs ->
  Forall (under d) evs
  /\ siblings_rendered (children_lines d evs) pre
  /\ forall D k nm t, nth_error (children_lines D evs) k = Some (nm, t) ->
     exists pre', siblings_rendered (children_lines D evs) pre'
       /\ siblings_rendered (children_lines (D ++ [nm]) evs)
            (pre' +++ extension k (length (children_lines D evs))).
Proof.
  induction n as [|r ch IH] using node_ind'; intros Hun d pre evs H; [discriminate|].
  destruct r; [|discriminate].
  rewrite walk_dir_true in H.
  destruct (filter_opt _ _) as [filtered|] eqn:Hf; [|discriminate].
  destruct (emit_entries d pre (length filtered) 0 filtered) as [evs'|] eqn:He; [|discriminate].
  injection H as <-.
  simpl in Hun; apply andb_true_iff in Hun as [Hnd Hall].
  assert (Hnl : NoDup (map ename (sort_by entry_lt
             (map (fun '(nm, c) => mk_entry nm c (walk root ignore_dirs ignore_files only_from c)) ch)))).
  { eapply Permutation_NoDup; [apply Permutation_map; symmetry; apply sort_by_perm|].
    rewrite map_map.
    replace (map _ ch) with (map fst ch) by (apply map_ext; intros [nm c]; reflexivity).
    apply nodupb_NoDup; exact Hnd. }
  pose proof (filter_opt_NoDup_map _ _ _ _ Hnl Hf) as Hnf.
  (* the recursive walks of the kept entries *)
  assert (HC : forall e s sub, In e filtered -> ewalk e (d ++ [ename e]) s = Some sub ->
            Forall (under (d ++ [ename e])) sub
            /\ siblings_rendered (children_lines (d ++ [ename e]) sub) s
            /\ forall D k nm t, nth_error (children_lines D sub) k = Some (nm, t) ->
               exists pre', siblings_rendered (children_lines D sub) pre'
                 /\ siblings_rendered (children_lines (D ++ [nm]) sub)
                      (pre' +++ extension k (length (children_lines D sub)))).
  { intros e s sub Hin Hw.
    destruct (In_filtered _ _ _ _ _ _ _ _ Hf Hin) as [Hch [Hew _]].
    rewrite Hew in Hw.
    exact (proj1 (Forall_forall _ _) IH _ Hch (proj1 (forallb_forall _ _) Hall _ Hch) _ _ _ Hw). }
  assert (HSU : forall e s sub, In e filtered -> is_dir (enode e) = true ->
             ewalk e (d ++ [ename e]) s = Some sub -> Forall (under (d ++ [ename e])) sub)
    by (intros e s sub Hin _ Hw; exact (proj1 (HC e s sub Hin Hw))).
  destruct (emit_entries_view child_line child_line_listed child_line_line d pre (length filtered)
              filtered 0 evs' He Hnf HSU) as [Hu Hv].
  pose proof (emit_entries_direct d pre (length filtered) filtered 0 evs' He HSU) as Hdir.
  change (children_lines ?X (Listed d :: evs')) with (children_lines X evs').
  assert (Hlen : length (children_lines d evs') = length filtered)
    by (rewrite Hdir, expected_lines_length; reflexivity).
  assert (P1 : siblings_rendered (children_lines d evs') pre).
  { intros k nm t Hk; rewrite Hdir in Hk.
    destruct (expected_lines_nth _ _ _ _ _ _ _ Hk) as [e [_ [_ Ht]]].
    rewrite Ht, Hlen; reflexivity. }
  split; [constructor; [exists []; rewrite app_nil_r; reflexivity | exact Hu]|].
  split; [exact P1|].
  intros D k nm t Hk.
  destruct (list_eq_dec string_dec D d) as [->|Hne].
  - exists pre; split; [exact P1|].
    rewrite Hdir in Hk.
    destruct (expected_lines_nth _ _ _ _ _ _ _ Hk) as [e [Hnth [Hnm _]]].
    destruct (children_lines (d ++ [nm]) evs') as [|y ys] eqn:Ec; [apply siblings_rendered_nil|].
    rewrite <- Ec.
    destruct (Hv (d ++ [nm])) as [k' [e' [sub' [Hnth' [_ [Hw [[r' Hr'] Hsame]]]]]]].
    { intros Heq; apply (f_equal (@length string)) in Heq; rewrite length_app in Heq; simpl in Heq; lia. }
    { unfold children_lines in Ec; rewrite Ec; discriminate. }
    assert (Hnm' : nm = ename e') by (rewrite <- (app_nil_r (d ++ [nm])) in Hr'; exact (prefix_name_eq _ _ _ _ _ Hr')).
    assert (Hkk : k' = k) by (apply (nth_error_name_inj _ _ _ _ _ Hnf Hnth' Hnth); congruence).
    subst k'; rewrite Hnth in Hnth'; injection Hnth' as <-.
    change (flat_map (child_line ?X) ?Y) with (children_lines X Y) in Hsame; rewrite Hsame.
    subst nm.
    destruct (HC e _ sub' (nth_error_In _ _ Hnth) Hw) as [_ [Hs _]].
    rewrite Hlen; exact Hs.
  - assert (Hne' : children_lines D evs' <> []) by (intros E; rewrite E in Hk; destruct k; discriminate).
    destruct (Hv D Hne Hne') as [k1 [e1 [sub1 [Hnth1 [_ [Hw1 [[r1 Hr1] Hs1]]]]]]].
    fold (children_lines D evs') (children_lines D sub1) in Hs1.
    rewrite Hs1 in Hk |- *.
    destruct (HC e1 _ sub1 (nth_error_In _ _ Hnth1) Hw1) as [_ [_ H3]].
    destruct (H3 D k nm t Hk) as [pre' [S1 S2]].
    exists pre'; split; [exact S1|].
    destruct (children_lines (D ++ [nm]) evs') as [|y ys] eqn:Ec; [apply siblings_rendered_nil|].
    rewrite <- Ec.
    destruct (Hv (D ++ [nm])) as [k2 [e2 [sub2 [Hnth2 [_ [Hw2 [[r2 Hr2] Hs2]]]]]]].
    { intros Heq; rewrite Hr1 in Heq; apply (f_equal (@length string)) in Heq;
        rewrite !length_app in Heq; simpl in Heq; lia. }
    { unfold children_lines in Ec; rewrite Ec; discriminate. }
    assert (Hn12 : ename e1 = ename e2).
    { rewrite Hr1, <- app_assoc in Hr2; exact (prefix_name_eq _ _ _ _ _ Hr2). }
    assert (Hkk : k1 = k2) by exact (nth_error_name_inj _ _ _ _ _ Hnf Hnth1 Hnth2 Hn12).
    subst k2; rewrite Hnth1 in Hnth2; injection Hnth2 as <-.
    rewrite Hw1 in Hw2; injection Hw2 as <-.
    fold (children_lines (D ++ [nm]) evs') (children_lines (D ++ [nm]) sub1) in Hs2.
    rewrite Hs2; exact S2.
Qed.

(** X5: the layout of the tree: the lines of the children of a directory
    are its prefix, the connector ["└── "] on the last child and ["├── "]
    on the others, and the child's name; the children of the k-th of n
    siblings get their prefix extended by ["    "] when k is the last and
    by ["│   "] otherwise; the root's children have the empty prefix. *)
Theorem build_tree_layout (root : path) (ignore_dirs ignore_files : list path)
        (only_from : option (list string)) (fs : node) (evs : list event) :
  names_unique fs = true ->
  walk root ignore_dirs ignore_files only_from fs root "" = Some evs ->
  build_tree root ignore_dirs ignore_files only_from fs = Some (String.concat nl (tree_lines evs))
  /\ siblings_rendered (children_lines root evs) ""
  /\ forall d k nm t, nth_error (children_lines d evs) k = Some (nm, t) ->
     exists prefix, siblings_rendered (children_lines d evs) prefix
       /\ siblings_rendered (children_lines (d ++ [nm]) evs)
            (prefix +++ extension k (length (children_lines d evs))).
Proof.
  intros Hun Hw; split; [unfold build_tree; rewrite Hw; reflexivity|].
  destruct (walk_rendered _ _ _ _ fs Hun _ _ _ Hw) as [_ [H1 H2]].
  split; [exact H1 | exact H2].
Qed.


Lemma in_scope_dir_some (root rel : path) (dirs : list string) :
  rel <> [] -> _in_scope_dir (root ++ rel) root (Some dirs) = Some true ->
  exists top r, rel = top :: r /\ In top dirs.
Proof.
  intros Hne; unfold _in_scope_dir.
  destruct (list_eq_dec string_dec (root ++ rel) root) as [E|_].
  - exfalso; apply Hne; rewrite <- (app_nil_r root) in E at 2; exact (app_inv_head _ _ _ E).
  - rewrite relative_to_app; destruct rel as [|top r]; [contradiction|].
    intros H; injection H as H; apply existsb_exists in H as [x [Hx Ex]].
    apply String.eqb_eq in Ex; subst x; exists top, r; split; [reflexivity | exact Hx].
Qed.

Lemma walk_lines_kept (root : path) (ignore_dirs ignore_files : list path)
      (only_from : option (list string)) :
  forall n d pre evs,
  walk root ignore_dirs ignore_files only_from n d pre = Some evs ->
  Forall (line_kept root ignore_dirs ignore_files only_from d) evs.
Proof.
  induction n as [|r children IH] using node_ind'; intros d pre evs H; [discriminate|].
  destruct r; [|discriminate].
  rewrite walk_dir_true in H.
  destruct (filter_opt _ _) as [filtered|] eqn:Hf; [|discriminate].
  destruct (emit_entries _ _ _ _ _) as [evs'|] eqn:He; [|discriminate].
  injection H as <-; constructor; [exact I|].
  apply (emit_entries_Forall _ _ _ _ _ _ _ He).
  - intros e b t Hin; destruct (In_filtered _ _ _ _ _ _ _ e Hf Hin) as [_ [_ Hk]].
    split; [exact Hk | exists [ename e]; split; [discriminate | reflexivity]].
  - intros e s sub Hin _ Hw.
    destruct (In_filtered _ _ _ _ _ _ _ e Hf Hin) as [Hc [Hew _]].
    rewrite Hew in Hw.
    apply Forall_forall with (x := (ename e, enode e)) in IH; [|exact Hc].
    refine (Forall_impl _ _ (IH _ _ _ Hw)).
    intros [q|q b t]; [intros _; exact I|].
    intros [Hk [r' [_ ->]]]; split; [exact Hk|].
    exists ([ename e] ++ r'); split; [discriminate | rewrite app_assoc; reflexivity].
Qed.

(** X4: With [only_from = Some dirs], every entry of the tree lies below a
    top-level directory named in [dirs]; a file at the top level is shown
    only when its own name is in [dirs]. *)
Theorem only_from_tree_scope (root : path) (ignore_dirs ignore_files : list path)
        (dirs : list string) (fs : node) (evs : list event) (p : path) (b : bool) (t : string) :
  walk root ignore_dirs ignore_files (Some dirs) fs root "" = Some evs ->
  In (Line p b t) evs ->
  exists top r, p = root ++ top :: r /\ In top dirs.
Proof.
  intros Hw Hin.
  pose proof (proj1 (Forall_forall _ _) (walk_lines_kept _ _ _ _ _ _ _ _ Hw) _ Hin) as [Hk [rel [Hne ->]]].
  unfold keep_entry in Hk.
  destruct (_is_ignored (root ++ rel) root ignore_dirs ignore_files) as [[]|]; simpl in Hk;
    [discriminate | | discriminate].
  destruct (in_scope_dir_some _ _ _ Hne Hk) as [top [r [-> Ht]]].
  exists top, r; split; [reflexivity | exact Ht].
Qed.

Lemma collect_in_dir_complete (root : path) (ignore_dirs ignore_files : list path)
      (d_path : path) (extensions : list string) (fname : string) :
  forall filenames raw,
  collect_in_dir root ignore_dirs ignore_files d_path extensions filenames = Some raw ->
  In fname filenames -> existsb (endswith fname) extensions = true ->
  _is_ignored (d_path ++ [fname]) root ignore_dirs ignore_files = Some false ->
  In (d_path ++ [fname]) raw.
Proof.
  induction filenames as [|f rest IH]; intros raw H Hin Hx Hi; [destruct Hin|]; simpl in H.
  destruct (if existsb (endswith f) extensions then _ else Some []) as [here|] eqn:Eh; [|discriminate].
  destruct (collect_in_dir root ignore_dirs ignore_files d_path extensions rest) as [more|] eqn:Em;
    [|discriminate].
  injection H as <-; apply in_or_app.
  destruct Hin as [<-|Hin]; [|right; exact (IH more eq_refl Hin Hx Hi)].
  left; rewrite Hx, Hi in Eh; injection Eh as <-; left; reflexivity.
Qed.

(** X3: [collect_project_files] checks the scope of directories only: a file
    directly in [root] is collected whatever [only_from] is, while its
    other files all lie below a top-level directory named in [dirs]. *)
Theorem only_from_collect_scope (root : path) (ignore_dirs ignore_files : list path)
        (dirs : list string) (children : list (string * node)) (extensions : list string)
        (files : list path) (fname : string) :
  collect_project_files root ignore_dirs ignore_files (Some dirs) (Dir true children) extensions
    = Some files ->
  In (fname, File) children ->
  existsb (endswith fname) extensions = true ->
  _is_ignored root root ignore_dirs ignore_files = Some false ->
  _is_ignored (root ++ [fname]) root ignore_dirs ignore_files = Some false ->
  In (root ++ [fname]) files
  /\ forall p, In p files ->
     (exists f, p = root ++ [f])
     \/ exists top r, p = root ++ top :: r /\ In top dirs.
Proof.
  intros H Hc Hx Hr Hi; split.
  - unfold collect_project_files in H.
    destruct (collect_walk _ _ _ _ _ _) as [raw|] eqn:E; [|discriminate].
    injection H as <-.
    apply (Permutation_in _ (Permutation_sym (sort_by_perm _ _))).
    simpl in E; unfold skip_dir in E; rewrite Hr in E; simpl in E.
    unfold _in_scope_dir in E; destruct (list_eq_dec string_dec root root) as [_|C]; [|contradiction].
    simpl in E.
    destruct (collect_in_dir _ _ _ _ _ _) as [here|] eqn:Eh; [|discriminate].
    destruct (collect_walk _ _ _ _ _ _) as [more|]; [|discriminate].
    injection E as <-; apply in_or_app; left.
    apply (collect_in_dir_complete _ _ _ _ _ _ _ _ Eh); [|exact Hx|exact Hi].
    apply in_map_iff; exists (fname, File); split; [reflexivity|].
    apply filter_In; split; [exact Hc | reflexivity].
  - intros p Hp.
    destruct (collect_project_files_shape _ _ _ _ _ _ _ _ H Hp) as [rel [f [-> [_ [_ [_ Hs]]]]]].
    destruct rel as [|top r]; [left; exists f; reflexivity|].
    right; destruct (in_scope_dir_some root (top :: r) dirs ltac:(discriminate) Hs) as [t0 [r0 [E Ht]]].
    injection E as <- <-; exists top, (r ++ [f]); split; [reflexivity | exact Ht].
Qed.


Lemma os_walk_dir_true (children : list (string * node)) (top : path) :
  os_walk (Dir true children) top
  = (top, map fst (filter (fun c => is_dir (snd c)) children),
          map fst (filter (fun c => negb (is_dir (snd c))) children))
    :: flat_map (fun '(nm, c) => if is_dir c then os_walk c (top ++ [nm]) else []) children.
Proof.
  simpl; f_equal.
  induction children as [|[nm c] ch IH]; [reflexivity|].
  simpl; f_equal; exact IH.
Qed.

Lemma os_walk_prefix (n : node) :
  forall top w, In w (os_walk n top) -> exists r, fst (fst w) = top ++ r.
Proof.
  induction n as [|r ch IH] using node_ind'; intros top w Hw; [destruct Hw|].
  destruct r; [|destruct Hw].
  rewrite os_walk_dir_true in Hw; destruct Hw as [<-|Hw].
  - exists []; rewrite app_nil_r; reflexivity.
  - apply in_flat_map in Hw as [[nm c] [Hc Hw]].
    destruct (is_dir c); [|destruct Hw].
    apply Forall_forall with (x := (nm, c)) in IH; [|exact Hc].
    destruct (IH _ _ Hw) as [r' Hr']; exists ([nm] ++ r'); rewrite Hr', app_assoc; reflexivity.
Qed.

Lemma NoDup_map_filter {A B : Type} (g : A -> B) (f : A -> bool) (l : list A) :
  NoDup (map g l) -> NoDup (map g (filter f l)).
Proof.
  induction l as [|x l IH]; simpl; intros H; [constructor|].
  apply NoDup_cons_iff in H as [Hx H].
  destruct (f x); simpl; [|exact (IH H)].
  constructor; [|exact (IH H)].
  intros Hin; apply Hx; apply in_map_iff in Hin as [y [Hy Hyl]].
  rewrite <- Hy; apply in_map; apply filter_In in Hyl as [Hyl _]; exact Hyl.
Qed.

Lemma NoDup_flat_map_children {B : Type} (top : path) (G : string -> node -> list B) (key : B -> path)
      (ch : list (string * node)) :
  NoDup (map fst ch) ->
  (forall nm c, In (nm, c) ch -> NoDup (map key (G nm c))) ->
  (forall nm c x, In (nm, c) ch -> In x (G nm c) -> exists r, key x = (top ++ [nm]) ++ r) ->
  NoDup (map key (flat_map (fun '(nm, c) => G nm c) ch)).
Proof.
  induction ch as [|[nm c] ch IH]; intros Hn HG Hk; [constructor|].
  simpl in Hn |- *; apply NoDup_cons_iff in Hn as [Hnin Hn].
  rewrite map_app; apply NoDup_app.
  - exact (HG nm c (or_introl eq_refl)).
  - apply IH; [exact Hn | intros; apply HG; right; assumption | intros; eapply Hk; [right|]; eassumption].
  - intros a Ha1 Ha2.
    apply in_map_iff in Ha1 as [x1 [<- Hx1]].
    apply in_map_iff in Ha2 as [x2 [Hx Hx2]].
    apply in_flat_map in Hx2 as [[nm' c'] [Hc' Hx2]].
    destruct (Hk nm c x1 (or_introl eq_refl) Hx1) as [r1 Hr1].
    destruct (Hk nm' c' x2 (or_intror Hc') Hx2) as [r2 Hr2].
    rewrite Hr1, Hr2 in Hx; apply prefix_name_eq in Hx; subst nm'.
    apply Hnin; change nm with (fst (nm, c')); apply in_map; exact Hc'.
Qed.

Lemma os_walk_nodup (n : node) :
  names_unique n = true -> forall top,
  NoDup (map (fun w => fst (fst w)) (os_walk n top))
  /\ forall w, In w (os_walk n top) -> NoDup (snd w).
Proof.
  induction n as [|r ch IH] using node_ind'; intros Hun top; [split; [constructor | intros w []]|].
  destruct r; [|split; [constructor | intros w []]].
  simpl in Hun; apply andb_true_iff in Hun as [Hnd Hall].
  apply nodupb_NoDup in Hnd.
  assert (IH' : forall nm c, In (nm, c) ch -> forall top',
             NoDup (map (fun w => fst (fst w)) (os_walk c top'))
             /\ forall w, In w (os_walk c top') -> NoDup (snd w)).
  { intros nm c Hc; apply Forall_forall with (x := (nm, c)) in IH; [|exact Hc].
    apply IH; exact (proj1 (forallb_forall _ _) Hall _ Hc). }
  rewrite os_walk_dir_true; split.
  - simpl; constructor.
    + intros Hin; apply in_map_iff in Hin as [w [Hw Hin]].
      apply in_flat_map in Hin as [[nm c] [Hc Hin]].
      destruct (is_dir c); [|destruct Hin].
      destruct (os_walk_prefix _ _ _ Hin) as [r' Hr'].
      rewrite Hw in Hr'; apply (f_equal (@length string)) in Hr'.
      rewrite !length_app in Hr'; simpl in Hr'; lia.
    + apply (NoDup_flat_map_children top (fun nm c => if is_dir c then os_walk c (top ++ [nm]) else [])
               (fun w => fst (fst w)) ch Hnd).
      * intros nm c Hc; destruct (is_dir c); [exact (proj1 (IH' nm c Hc _)) | constructor].
      * intros nm c x _ Hx; destruct (is_dir c); [exact (os_walk_prefix _ _ _ Hx) | destruct Hx].
  - intros w [<-|Hin].
    + simpl; apply NoDup_map_filter; exact Hnd.
    + apply in_flat_map in Hin as [[nm c] [Hc Hin]].
      destruct (is_dir c); [|destruct Hin].
      exact (proj2 (IH' nm c Hc _) w Hin).
Qed.

Lemma collect_in_dir_NoDup (root : path) (ignore_dirs ignore_files : list path)
      (d_path : path) (extensions : list string) :
  forall filenames out, NoDup filenames ->
  collect_in_dir root ignore_dirs ignore_files d_path extensions filenames = Some out ->
  NoDup out.
Proof.
  induction filenames as [|f rest IH]; intros out Hn H; simpl in H; [injection H as <-; constructor|].
  apply NoDup_cons_iff in Hn as [Hf Hn].
  destruct (if existsb (endswith f) extensions then _ else Some []) as [here|] eqn:Eh; [|discriminate].
  destruct (collect_in_dir root ignore_dirs ignore_files d_path extensions rest) as [more|] eqn:Em;
    [|discriminate].
  injection H as <-.
  assert (Hhere : forall p, In p here -> p = d_path ++ [f]).
  { intros p Hp; destruct (existsb (endswith f) extensions); [|injection Eh as <-; destruct Hp].
    destruct (_is_ignored _ _ _ _) as [[]|]; [injection Eh as <-; destruct Hp | | discriminate].
    injection Eh as <-; destruct Hp as [<-|[]]; reflexivity. }
  apply NoDup_app.
  - destruct (existsb (endswith f) extensions); [|injection Eh as <-; constructor].
    destruct (_is_ignored _ _ _ _) as [[]|]; [injection Eh as <-; constructor | | discriminate].
    injection Eh as <-; constructor; [intros [] | constructor].
  - exact (IH more Hn eq_refl).
  - intros p Hp1 Hp2; rewrite (Hhere p Hp1) in Hp2.
    destruct (collect_in_dir_In _ _ _ _ _ _ _ _ Em Hp2) as [f' [Hf' [Ep _]]].
    apply app_inj_tail in Ep as [_ <-]; exact (Hf Hf').
Qed.

Lemma collect_walk_NoDup (root : path) (ignore_dirs ignore_files : list path)
      (only_from : option (list string)) (extensions : list string) :
  forall walked out,
  NoDup (map (fun w => fst (fst w)) walked) ->
  (forall w, In w walked -> NoDup (snd w)) ->
  collect_walk root ignore_dirs ignore_files only_from extensions walked = Some out ->
  NoDup out.
Proof.
  induction walked as [|[[d dn] fns] rest IH]; intros out Hn Hf H; simpl in H;
    [injection H as <-; constructor|].
  simpl in Hn; apply NoDup_cons_iff in Hn as [Hd Hn].
  destruct (skip_dir root ignore_dirs ignore_files only_from d) as [skip|]; [|discriminate].
  destruct (if skip then Some [] else _) as [here|] eqn:Eh; [|discriminate].
  destruct (collect_walk root ignore_dirs ignore_files only_from extensions rest) as [more|] eqn:Em;
    [|discriminate].
  injection H as <-.
  assert (Hhere : NoDup here /\ forall p, In p here -> exists f, p = d ++ [f]).
  { destruct skip; [injection Eh as <-; split; [constructor | intros p []]|].
    split; [exact (collect_in_dir_NoDup _ _ _ _ _ _ _ (Hf _ (or_introl eq_refl)) Eh)|].
    intros p Hp; destruct (collect_in_dir_In _ _ _ _ _ _ _ _ Eh Hp) as [f [_ [-> _]]].
    exists f; reflexivity. }
  apply NoDup_app; [exact (proj1 Hhere) | exact (IH more Hn (fun w Hw => Hf w (or_intror Hw)) eq_refl)|].
  intros p Hp1 Hp2.
  destruct (proj2 Hhere p Hp1) as [f ->].
  destruct (collect_walk_In _ _ _ _ _ _ _ _ Em Hp2) as [d' [dn' [fns' [here' [Hw' [_ [Hc' Hp']]]]]]].
  destruct (collect_in_dir_In _ _ _ _ _ _ _ _ Hc' Hp') as [f' [_ [Ep _]]].
  apply app_inj_tail in Ep as [<- _].
  apply Hd; apply in_map_iff; exists (d, dn', fns'); split; [reflexivity | exact Hw'].
Qed.

(** X2: In a tree whose directories never hold two entries of the same name,
    [collect_project_files] returns no path twice. *)
Theorem collect_project_files_NoDup (root : path) (ignore_dirs ignore_files : list path)
        (only_from : option (list string)) (fs : node) (extensions : list string)
        (files : list path) :
  names_unique fs = true ->
  collect_project_files root ignore_dirs ignore_files only_from fs extensions = Some files ->
  NoDup files.
Proof.
  intros Hun H; unfold collect_project_files in H.
  destruct (collect_walk _ _ _ _ _ _) as [raw|] eqn:E; [|discriminate].
  injection H as <-.
  apply (Permutation_NoDup (Permutation_sym (sort_by_perm _ _))).
  destruct (os_walk_nodup fs Hun root) as [H1 H2].
  exact (collect_walk_NoDup _ _ _ _ _ _ _ H1 H2 E).
Qed.


Lemma split_by_nonnil (sep : ascii -> bool) (s : string) : split_by sep s <> [].
Proof.
  induction s as [|c s IH]; simpl; [discriminate|].
  destruct (sep c); [discriminate|]; destruct (split_by sep s); discriminate.
Qed.

Lemma split_by_app_nosep (sep : ascii -> bool) (p s : string) :
  forallb (fun c => negb (sep c)) (list_ascii_of_string p) = true ->
  split_by sep (p +++ s) = match split_by sep s with [] => [p] | w :: ws => (p +++ w) :: ws end.
Proof.
  induction p as [|c p IH]; intros H; simpl.
  - destruct (split_by sep s) eqn:E; [exfalso; exact (split_by_nonnil sep s E) | reflexivity].
  - simpl in H; apply andb_true_iff in H as [Hc H]; apply negb_true_iff in Hc.
    rewrite Hc, (IH H).
    destruct (split_by sep s) eqn:E; [exfalso; exact (split_by_nonnil sep s E) | reflexivity].
Qed.

Lemma split_by_concat (sep : ascii -> bool) (c0 : ascii) (ps : list string) :
  sep c0 = true -> ps <> [] ->
  forallb (fun p => forallb (fun c => negb (sep c)) (list_ascii_of_string p)) ps = true ->
  split_by sep (String.concat (String c0 "") ps) = ps.
Proof.
  intros Hc0; induction ps as [|p ps IH]; intros Hne H; [contradiction|].
  simpl in H; apply andb_true_iff in H as [Hp H].
  destruct ps as [|q qs].
  - simpl; rewrite <- (str_app_nil_r p) at 1; rewrite (split_by_app_nosep sep p "" Hp); simpl.
    rewrite str_app_nil_r; reflexivity.
  - change (String.concat (String c0 "") (p :: q :: qs))
      with (p +++ String c0 "" +++ String.concat (String c0 "") (q :: qs)).
    rewrite (split_by_app_nosep sep p _ Hp).
    assert (E : split_by sep (String c0 "" +++ String.concat (String c0 "") (q :: qs)) = "" :: q :: qs).
    { change (String c0 "" +++ ?r) with (String c0 r); cbn [split_by].
      rewrite Hc0, (IH ltac:(discriminate) H); reflexivity. }
    rewrite E, str_app_nil_r; reflexivity.
Qed.

Lemma str_snoc (p : string) : p = "" \/ exists q c, p = q +++ String c "".
Proof.
  induction p as [|c p IH]; [left; reflexivity|right].
  destruct IH as [->|[q [c' ->]]]; [exists "", c; reflexivity|].
  exists (String c q), c'; reflexivity.
Qed.

Lemma clean_pattern_kept (p : string) :
  clean_pattern p = true ->
  py_strip p = p /\ rstrip_char slash p = p /\ String.eqb p "" = false /\ startswith p "#" = false
  /\ forallb (fun c => negb (is_newline c)) (list_ascii_of_string p) = true.
Proof.
  unfold clean_pattern; intros H.
  apply andb_true_iff in H as [H Hnl]; apply andb_true_iff in H as [H Hsl];
    apply andb_true_iff in H as [Hhd Hsp].
  destruct p as [|c t]; [discriminate|].
  cbn [list_ascii_of_string] in Hhd; apply andb_true_iff in Hhd as [Hc Hh].
  apply negb_true_iff in Hc, Hh, Hsp, Hsl.
  assert (Hl : lstrip_ws (String c t) = String c t) by (simpl; rewrite Hc; reflexivity).
  destruct (str_snoc (String c t)) as [E|[q [c' Eq]]]; [discriminate|].
  rewrite Eq, list_ascii_app in Hsp, Hsl; cbn [list_ascii_of_string] in Hsp, Hsl;
    rewrite last_last in Hsp, Hsl.
  assert (Hr : rev_str (String c t) = String c' (rev_str q))
    by (rewrite Eq, rev_str_app; reflexivity).
  refine (conj _ (conj _ (conj _ (conj _ Hnl)))).
  - unfold py_strip; rewrite Hl, Hr; simpl; rewrite Hsp, <- Hr, rev_str_involutive; reflexivity.
  - unfold rstrip_char; rewrite Hr; simpl; rewrite Hsl, <- Hr, rev_str_involutive; reflexivity.
  - reflexivity.
  - unfold startswith.
    change (String.prefix (String "#" "") (String c t))
      with (if ascii_dec "#" c then String.prefix "" t else false).
    destruct (ascii_dec "#" c) as [E|_]; [|reflexivity].
    subst c; discriminate.
Qed.

(** X7: Writing patterns one per line and loading the file gives them back:
    for lines that [load_gitignore_patterns] leaves unchanged, it is the
    inverse of joining them with newlines. *)
Theorem gitignore_round_trip (ps : list string) :
  forallb clean_pattern ps = true ->
  load_gitignore_patterns (Some (String.concat nl ps)) = ps.
Proof.
  intros H; rewrite load_gitignore_patterns_flat.
  destruct ps as [|p ps]; [reflexivity|].
  change (String.concat nl (p :: ps)) with (String.concat (String (ascii_of_nat 10) "") (p :: ps)).
  rewrite split_by_concat with (ps := p :: ps).
  - clear - H; induction (p :: ps) as [|q qs IH]; [reflexivity|].
    simpl in H |- *; apply andb_true_iff in H as [Hq H].
    destruct (clean_pattern_kept q Hq) as [Hs [Hr [He [Hh _]]]].
    rewrite Hs, He, Hh, Hr; simpl; rewrite (IH H); reflexivity.
  - reflexivity.
  - discriminate.
  - apply forallb_forall; intros q Hq.
    exact (proj2 (proj2 (proj2 (proj2 (clean_pattern_kept q (proj1 (forallb_forall _ _) H q Hq)))))).
Qed.


(** ** Witnesses of the properties above *)

Lemma X1_witness :
  exists files,
    collect_project_files ["r"] (ignore_dirs_of ["r"] []) (ignore_files_of ["r"] "prompt.txt") None
      example_scope_fs [".py"] = Some files
    /\ In ["r"; "src"; "pkg"; "n.py"] files
    /\ exists rel fname, ["r"; "src"; "pkg"; "n.py"] = ["r"] ++ rel ++ [fname]
                         /\ existsb (endswith fname) [".py"] = true.
Proof.
  assert (H : collect_project_files ["r"] (ignore_dirs_of ["r"] []) (ignore_files_of ["r"] "prompt.txt")
                None example_scope_fs [".py"]
              = Some [["r"; "setup.py"]; ["r"; "src"; "m.py"]; ["r"; "src"; "pkg"; "n.py"]])
    by (vm_compute; reflexivity).
  assert (Hin : In ["r"; "src"; "pkg"; "n.py"] [["r"; "setup.py"]; ["r"; "src"; "m.py"]; ["r"; "src"; "pkg"; "n.py"]])
    by (right; right; left; reflexivity).
  exists [["r"; "setup.py"]; ["r"; "src"; "m.py"]; ["r"; "src"; "pkg"; "n.py"]].
  split; [exact H|]; split; [exact Hin|].
  destruct (collect_project_files_shape _ _ _ _ _ _ _ _ H Hin) as [rel [fname [E [Hx _]]]].
  exists rel, fname; split; [exact E | exact Hx].
Defined.

Lemma X2_witness :
  names_unique example_scope_fs = true
  /\ exists files,
       collect_project_files ["r"] (ignore_dirs_of ["r"] []) (ignore_files_of ["r"] "prompt.txt") None
         example_scope_fs [".py"; ".md"] = Some files
       /\ NoDup files.
Proof.
  assert (Hu : names_unique example_scope_fs = true) by reflexivity.
  split; [exact Hu|].
  destruct (collect_project_files ["r"] (ignore_dirs_of ["r"] []) (ignore_files_of ["r"] "prompt.txt") None
              example_scope_fs [".py"; ".md"]) as [files|] eqn:H; [|vm_compute in H; discriminate].
  exists files; split; [reflexivity|].
  exact (collect_project_files_NoDup _ _ _ _ _ _ _ Hu H).
Defined.

Lemma X3_witness :
  collect_project_files ["r"] (ignore_dirs_of ["r"] []) (ignore_files_of ["r"] "prompt.txt")
    (Some ["src"]) (Dir true [("setup.py", File);
                              ("src", Dir true [("m.py", File); ("pkg", Dir true [("n.py", File)])]);
                              ("docs", Dir true [("d.md", File)])]) [".py"; ".md"]
    = Some [["r"; "setup.py"]; ["r"; "src"; "m.py"]; ["r"; "src"; "pkg"; "n.py"]]
  /\ In ["r"; "setup.py"] [["r"; "setup.py"]; ["r"; "src"; "m.py"]; ["r"; "src"; "pkg"; "n.py"]].
Proof.
  assert (H : collect_project_files ["r"] (ignore_dirs_of ["r"] []) (ignore_files_of ["r"] "prompt.txt")
    (Some ["src"]) (Dir true [("setup.py", File);
                              ("src", Dir true [("m.py", File); ("pkg", Dir true [("n.py", File)])]);
                              ("docs", Dir true [("d.md", File)])]) [".py"; ".md"]
    = Some [["r"; "setup.py"]; ["r"; "src"; "m.py"]; ["r"; "src"; "pkg"; "n.py"]])
    by (vm_compute; reflexivity).
  split; [exact H|].
  refine (proj1 (only_from_collect_scope ["r"] _ _ ["src"] _ [".py"; ".md"] _ "setup.py" H _ _ _ _)).
  - left; reflexivity.
  - reflexivity.
  - vm_compute; reflexivity.
  - vm_compute; reflexivity.
Defined.

Lemma X4_witness :
  exists evs,
    walk ["r"] (ignore_dirs_of ["r"] []) (ignore_files_of ["r"] "prompt.txt") (Some ["src"])
      example_scope_fs ["r"] "" = Some evs
    /\ In (Line ["r"; "src"; "pkg"; "n.py"] true "    │   └── n.py") evs
    /\ exists top rest, ["r"; "src"; "pkg"; "n.py"] = ["r"] ++ top :: rest /\ In top ["src"].
Proof.
  destruct (walk ["r"] (ignore_dirs_of ["r"] []) (ignore_files_of ["r"] "prompt.txt") (Some ["src"])
              example_scope_fs ["r"] "") as [evs|] eqn:H; [|vm_compute in H; discriminate].
  assert (Hin : In (Line ["r"; "src"; "pkg"; "n.py"] true "    │   └── n.py") evs).
  { vm_compute in H; injection H as <-; simpl; tauto. }
  exists evs; split; [reflexivity|]; split; [exact Hin|].
  exact (only_from_tree_scope _ _ _ _ _ _ _ _ _ H Hin).
Defined.

Lemma X5_witness :
  names_unique example_scope_fs = true
  /\ exists evs,
       walk ["r"] (ignore_dirs_of ["r"] []) (ignore_files_of ["r"] "prompt.txt") None
         example_scope_fs ["r"] "" = Some evs
       /\ children_lines ["r"; "src"] evs = [("pkg", "│   ├── pkg"); ("m.py", "│   └── m.py")]
       /\ siblings_rendered (children_lines ["r"] evs) "".
Proof.
  assert (Hu : names_unique example_scope_fs = true) by reflexivity.
  split; [exact Hu|].
  destruct (walk ["r"] (ignore_dirs_of ["r"] []) (ignore_files_of ["r"] "prompt.txt") None
              example_scope_fs ["r"] "") as [evs|] eqn:H; [|vm_compute in H; discriminate].
  exists evs; split; [reflexivity|]; split.
  - vm_compute in H; injection H as <-; vm_compute; reflexivity.
  - exact (proj1 (proj2 (build_tree_layout _ _ _ _ _ _ Hu H))).
Defined.

Lemma X6_witness :
  In "build" (load_gitignore_patterns (Some ("build//" +++ nl +++ "# comment")))
  /\ exists text raw k,
       Some ("build//" +++ nl +++ "# comment") = Some text
       /\ In raw (split_by is_newline text)
       /\ py_strip raw = "build" +++ k.
Proof.
  assert (H : In "build" (load_gitignore_patterns (Some ("build//" +++ nl +++ "# comment"))))
    by (vm_compute; left; reflexivity).
  split; [exact H|].
  destruct (gitignore_pattern_shape _ _ H) as [text [raw [k [E1 [E2 [E3 _]]]]]].
  exists text, raw, k; split; [exact E1 | split; [exact E2 | exact E3]].
Defined.

Lemma X7_witness :
  forallb clean_pattern ["build"; "*.log"; "docs/tmp"] = true
  /\ load_gitignore_patterns (Some (String.concat nl ["build"; "*.log"; "docs/tmp"]))
     = ["build"; "*.log"; "docs/tmp"].
Proof.
  assert (H : forallb clean_pattern ["build"; "*.log"; "docs/tmp"] = true) by reflexivity.
  split; [exact H | exact (gitignore_round_trip _ H)].
Defined.

Lemma X8_witness :
  In "/" (split_by is_newline ("/" +++ nl +++ "dist"))
  /\ py_strip "/" <> ""
  /\ forallb (Ascii.eqb slash) (list_ascii_of_string (py_strip "/")) = true
  /\ is_dir_ignored ["src"; "proj"; "a.py"]
       (ignore_dirs_of ["home"; "proj"] (load_gitignore_patterns (Some ("/" +++ nl +++ "dist"))))
     = true.
Proof.
  assert (H1 : In "/" (split_by is_newline ("/" +++ nl +++ "dist"))) by (vm_compute; left; reflexivity).
  assert (H2 : py_strip "/" <> "") by (vm_compute; discriminate).
  assert (H3 : forallb (Ascii.eqb slash) (list_ascii_of_string (py_strip "/")) = true) by reflexivity.
  refine (conj H1 (conj H2 (conj H3 _))).
  apply (proj2 (gitignore_slash_line ["home"; "proj"] _ _ H1 H2 H3)).
  right; left; reflexivity.
Defined.

Lemma X9_witness :
  make_git_prompt (fun _ => GitMissing) "I" true = None
  /\ make_git_prompt (fun c => if list_eq_dec string_dec c diff_cmd then GitOutput "d" else GitFailed "e")
       "I" true = Some "No Git changes detected.".
Proof.
  split.
  - exact (proj1 (make_git_prompt_errors (fun _ => GitMissing) "I") eq_refl true).
  - exact (proj1 (proj2 (proj2 (proj2 (make_git_prompt_errors
             (fun c => if list_eq_dec string_dec c diff_cmd then GitOutput "d" else GitFailed "e") "I"))))
             "e" eq_refl).
Defined.

Lemma X10_witness :
  In ["etc"; "passwd"] [["r"; "ok.py"]; ["etc"; "passwd"]]
  /\ relative_to ["etc"; "passwd"] ["r"] = None
  /\ make_files_prompt ["r"] read_bad [["r"; "ok.py"]; ["etc"; "passwd"]] = None
  /\ make_full_context_prompt ["r"] read_bad "T0" "T1" "T2" "T3" "task" "."
       [["r"; "ok.py"]; ["etc"; "passwd"]] = None.
Proof.
  assert (H1 : In ["etc"; "passwd"] [["r"; "ok.py"]; ["etc"; "passwd"]]) by (right; left; reflexivity).
  assert (H2 : relative_to ["etc"; "passwd"] ["r"] = None) by reflexivity.
  destruct (prompts_outside_root ["r"] read_bad "T0" "T1" "T2" "T3" "task" "." _ _ H1 H2) as [A B].
  refine (conj H1 (conj H2 (conj A _))).
  apply B; vm_compute; reflexivity.
Defined.

Lemma X11_witness :
  old_blocks ["r"] read_mixed [["r"; "ok.py"]; ["r"; "bin.dat"]]
  = old_blocks ["r"] read_mixed [["r"; "ok.py"]]
  /\ make_full_context_prompt_old ["r"] read_mixed "T1" "T2" "task" "."
       [["r"; "ok.py"]; ["r"; "gone.py"]] = None.
Proof.
  destruct (make_full_context_prompt_old_files ["r"] read_mixed "T1" "T2" "task" "."
              [["r"; "ok.py"]; ["r"; "bin.dat"]]) as [_ [B _]].
  destruct (make_full_context_prompt_old_files ["r"] read_mixed "T1" "T2" "task" "."
              [["r"; "ok.py"]; ["r"; "gone.py"]]) as [_ [_ C]].
  split.
  - exact (B ltac:(repeat constructor; eexists; reflexivity)).
  - apply (C ["r"; "gone.py"]); [right; left; reflexivity | left; reflexivity].
Defined.
